(** * Linguist-App: a shallow embedding of [app.py]

    The application keeps three tables (users, decks, cards) behind
    SQLAlchemy accessors and serves them through Flask request handlers.
    A table is a finite map from the integer primary key to the row; every
    accessor opens its own unit of work, so it is a function from the
    database to a result and the database after the commit. *)

From stdpp Require Import base option list gmap fin_maps strings.
From Stdlib Require Import ZArith Ascii String Permutation.

Local Open Scope string_scope.
Local Open Scope Z_scope.

(** ** Rows ([class User], [class Deck], [class Card])

    The primary key [id] is the key of the table; the other columns are the
    fields of the row.  A column that is not declared [nullable=False] may
    hold NULL and is an [option]. *)

Record User := mkUser {
  user_name : option string;
  user_email : string;
  user_password : string
}.

Record Deck := mkDeck {
  deck_name : string;
  deck_user_id : option Z
}.

Record Card := mkCard {
  card_user_id : option Z;
  card_word : string;
  card_translation : string;
  card_tip : option string;
  card_deck_id : option Z
}.

Record DB := mkDB {
  users : gmap Z User;
  decks : gmap Z Deck;
  cards : gmap Z Card
}.

Definition empty_db : DB := mkDB ∅ ∅ ∅.

(** The value record of [Card.to_dict]. *)
Record CardDict := mkCardDict {
  dict_id : Z;
  dict_word : string;
  dict_translation : string;
  dict_tip : option string
}.

Definition to_dict (c : Z * Card) : CardDict :=
  {| dict_id := c.1;
     dict_word := card_word c.2;
     dict_translation := card_translation c.2;
     dict_tip := card_tip c.2 |}.

(** ** Primary keys

    [Column(Integer, primary_key=True)] on SQLite: a new row receives the
    largest key of the table plus one, and 1 in an empty table.  No caller
    chooses a key, so the keys of a table are never below 1. *)

Definition max_id {A} (m : gmap Z A) : Z :=
  foldr Z.max 0 (map_to_list m).*1.

Definition next_id {A} (m : gmap Z A) : Z := 1 + max_id m.

(** ** Relationships

    [Deck.cards], [User.decks] and [User.cards] are the rows whose foreign
    key names the parent. *)

Definition deck_cards (db : DB) (deck_id : Z) : list (Z * Card) :=
  filter (λ c, card_deck_id c.2 = Some deck_id) (map_to_list (cards db)).

Definition user_decks (db : DB) (user_id : Z) : list (Z * Deck) :=
  filter (λ d, deck_user_id d.2 = Some user_id) (map_to_list (decks db)).

Definition user_cards (db : DB) (user_id : Z) : list (Z * Card) :=
  filter (λ c, card_user_id c.2 = Some user_id) (map_to_list (cards db)).

(** [session.delete] with [cascade="all, delete-orphan"]: deleting a deck
    deletes the cards of [Deck.cards]; deleting a user deletes the decks of
    [User.decks] (each with its cards) and the cards of [User.cards]. *)

Definition orm_delete_deck (db : DB) (deck_id : Z) : DB :=
  {| users := users db;
     decks := delete deck_id (decks db);
     cards := filter (λ c, card_deck_id c.2 ≠ Some deck_id) (cards db) |}.

(** The card's [deck_id] names a deck of [User.decks]. *)
Definition in_deck_of_user (db : DB) (user_id : Z) (c : Card) : Prop :=
  match card_deck_id c ≫= (decks db !!.) with
  | Some deck => deck_user_id deck = Some user_id
  | None => False
  end.

Global Instance in_deck_of_user_dec db user_id c :
  Decision (in_deck_of_user db user_id c).
Proof. unfold in_deck_of_user. destruct (card_deck_id c ≫= _); apply _. Defined.

Definition orm_delete_user (db : DB) (user_id : Z) : DB :=
  {| users := delete user_id (users db);
     decks := filter (λ d, deck_user_id d.2 ≠ Some user_id) (decks db);
     cards := filter (λ c, card_user_id c.2 ≠ Some user_id ∧
                           ¬ in_deck_of_user db user_id c.2) (cards db) |}.

(** ** The credential service ([pwd_context]) *)

Record CryptContext := mkCryptContext {
  (* [hash salt password]: bcrypt draws the salt itself; it is an input here *)
  hash : string → string → string;
  (* [verify password stored_hash] *)
  verify : string → string → bool
}.

(** ** Exceptions and [session.get]

    A call either returns or raises.  SQLite keeps an INTEGER in 64 bits, so
    the driver refuses a larger Python int when it binds the key:
    [session.get] raises [OverflowError] for an id outside that range.  The
    key of a stored row is always inside it. *)

Inductive Error := OverflowError | OperationalError.

Inductive Outcome (A : Type) :=
  | Returned (a : A)
  | Raised (e : Error).
Arguments Returned {A} a.
Arguments Raised {A} e.

Definition int64 (z : Z) : Prop := -2 ^ 63 ≤ z < 2 ^ 63.

Inductive Got (A : Type) :=
  | Found (row : A)
  | Missing
  | Overflow.
Arguments Found {A} row.
Arguments Missing {A}.
Arguments Overflow {A}.

Definition session_get {A} (table : gmap Z A) (id : Z) : Got A :=
  match table !! id with
  | Some row => Found row
  | None => if decide (int64 id) then Missing else Overflow
  end.

(** ** CRUD accessors *)

Definition user_get_by_id (db : DB) (user_id : Z) : option (Z * User) :=
  (λ u, (user_id, u)) <$> users db !! user_id.

Definition user_get_by_email (db : DB) (email : string) : option (Z * User) :=
  head (filter (λ u, user_email u.2 = email) (map_to_list (users db))).

Definition user_update_name (db : DB) (user_id : Z) (name : option string)
  : option (Z * User) * DB :=
  match users db !! user_id with
  | Some user =>
      let user' := {| user_name := name;
                      user_email := user_email user;
                      user_password := user_password user |} in
      (Some (user_id, user'),
       {| users := <[user_id := user']> (users db);
          decks := decks db; cards := cards db |})
  | None => (None, db)
  end.

Definition user_delete_by_id (db : DB) (user_id : Z) : Outcome bool * DB :=
  match session_get (users db) user_id with
  | Found _ => (Returned true, orm_delete_user db user_id)
  | Missing => (Returned false, db)
  | Overflow => (Raised OverflowError, db)
  end.

Definition deck_create (db : DB) (name : string) (user_id : option Z)
  : (Z * Deck) * DB :=
  let new_deck := {| deck_name := name; deck_user_id := user_id |} in
  let id := next_id (decks db) in
  ((id, new_deck),
   {| users := users db;
      decks := <[id := new_deck]> (decks db);
      cards := cards db |}).

Definition deck_get_by_id (db : DB) (deck_id : Z) : option (Z * Deck) :=
  (λ d, (deck_id, d)) <$> decks db !! deck_id.

Definition deck_update (db : DB) (deck_id : Z) (name : string)
  : option (Z * Deck) * DB :=
  match decks db !! deck_id with
  | Some deck =>
      let deck' := {| deck_name := name; deck_user_id := deck_user_id deck |} in
      (Some (deck_id, deck'),
       {| users := users db;
          decks := <[deck_id := deck']> (decks db);
          cards := cards db |})
  | None => (None, db)
  end.

Definition deck_delete_by_id (db : DB) (deck_id : Z) : Outcome bool * DB :=
  match session_get (decks db) deck_id with
  | Found _ => (Returned true, orm_delete_deck db deck_id)
  | Missing => (Returned false, db)
  | Overflow => (Raised OverflowError, db)
  end.

Definition card_create (db : DB) (user_id : option Z) (word translation : string)
    (tip : option string) (deck_id : option Z) : (Z * Card) * DB :=
  let new_card := {| card_user_id := user_id;
                     card_word := word;
                     card_translation := translation;
                     card_tip := tip;
                     card_deck_id := deck_id |} in
  let id := next_id (cards db) in
  ((id, new_card),
   {| users := users db;
      decks := decks db;
      cards := <[id := new_card]> (cards db) |}).

Definition card_get_by_id (db : DB) (card_id : Z) : option (Z * Card) :=
  (λ c, (card_id, c)) <$> cards db !! card_id.

(** [card_update]: an argument that is [None] leaves its column alone. *)
Definition card_update (db : DB) (card_id : Z)
    (word translation tip : option string) : option (Z * Card) * DB :=
  match cards db !! card_id with
  | Some card =>
      let card' :=
        {| card_user_id := card_user_id card;
           card_word := match word with Some w => w | None => card_word card end;
           card_translation :=
             match translation with Some t => t | None => card_translation card end;
           card_tip := match tip with Some t => Some t | None => card_tip card end;
           card_deck_id := card_deck_id card |} in
      (Some (card_id, card'),
       {| users := users db;
          decks := decks db;
          cards := <[card_id := card']> (cards db) |})
  | None => (None, db)
  end.

Definition card_delete_by_id (db : DB) (card_id : Z) : Outcome bool * DB :=
  match session_get (cards db) card_id with
  | Found _ => (Returned true,
                {| users := users db;
                   decks := decks db;
                   cards := delete card_id (cards db) |})
  | Missing => (Returned false, db)
  | Overflow => (Raised OverflowError, db)
  end.

Section Credentials.
Variable pwd_context : CryptContext.

Definition verify_password (user : User) (password : string) : bool :=
  verify pwd_context password (user_password user).

Definition user_create (db : DB) (salt : string) (name : option string)
    (email password : string) : option (Z * User) * DB :=
  match user_get_by_email db email with
  | Some _ => (None, db)
  | None =>
      let hashed_password := hash pwd_context salt password in
      let new_user := {| user_name := name;
                         user_email := email;
                         user_password := hashed_password |} in
      let id := next_id (users db) in
      (Some (id, new_user),
       {| users := <[id := new_user]> (users db);
          decks := decks db;
          cards := cards db |})
  end.

Definition user_change_password (db : DB) (salt : string) (user_id : Z)
    (old_password new_password : string) : bool * DB :=
  match users db !! user_id with
  | Some user =>
      if verify_password user old_password then
        let user' := {| user_name := user_name user;
                        user_email := user_email user;
                        user_password := hash pwd_context salt new_password |} in
        (true,
         {| users := <[user_id := user']> (users db);
            decks := decks db; cards := cards db |})
      else (false, db)
  | None => (false, db)
  end.
End Credentials.

(** ** [card_filter]: the SQL [LIKE] of [ilike]

    [Card.word.ilike(p)] is sent to SQLite as [lower(word) LIKE lower(p)].
    A string is the UTF-8 encoding of its text, byte by byte.  SQLite's
    [lower] folds the letters A-Z.  [LIKE] reads both operands as C strings,
    up to the first NUL, and character by character: a byte from 0xC0 on
    begins a character that takes the bytes 0x80-0xBF after it along.  In
    the pattern [%] stands for any run of characters (also none) and [_]
    for exactly one character.  A pattern of more than 50000 bytes is
    refused with [OperationalError] when [LIKE] is evaluated, which happens
    once per row. *)

Definition lower_ascii (c : ascii) : ascii :=
  let n := nat_of_ascii c in
  if ((65 <=? n) && (n <=? 90))%nat then ascii_of_nat (n + 32) else c.

Fixpoint lower (s : string) : string :=
  match s with
  | EmptyString => EmptyString
  | String c s' => String (lower_ascii c) (lower s')
  end.

(** The string as C reads it: up to its first NUL. *)
Fixpoint c_string (s : string) : string :=
  match s with
  | EmptyString => EmptyString
  | String c s' => if Ascii.eqb c zero then EmptyString else String c (c_string s')
  end.

(** A byte 0x80-0xBF continues a character; a byte from 0xC0 on begins one
    of several bytes. *)
Definition is_continuation (c : ascii) : bool :=
  let n := nat_of_ascii c in ((128 <=? n) && (n <? 192))%nat.

Definition is_lead (c : ascii) : bool := (192 <=? nat_of_ascii c)%nat.

Fixpoint skip_continuation (s : string) : string :=
  match s with
  | EmptyString => EmptyString
  | String c s' => if is_continuation c then skip_continuation s' else s
  end.

(** What follows the character that begins with the byte [c]. *)
Definition after_char (c : ascii) (s' : string) : string :=
  if is_lead c then skip_continuation s' else s'.

(** [%]: try the rest of the pattern, [k], at every character of the
    string and at its end; [inside] tells that the bytes read last began a
    character whose continuation bytes are still to be passed. *)
Fixpoint any_run (k : string → bool) (inside : bool) (s : string) : bool :=
  match s with
  | EmptyString => k EmptyString
  | String c s' =>
      if inside && is_continuation c then any_run k true s'
      else k s || any_run k (is_lead c) s'
  end.

Fixpoint like (pat : string) : string → bool :=
  match pat with
  | EmptyString => λ s, match s with EmptyString => true | _ => false end
  | String c pat' =>
      if Ascii.eqb c "%" then any_run (like pat') false
      else if Ascii.eqb c "_" then
        λ s, match s with
             | EmptyString => false
             | String d s' => like pat' (after_char d s')
             end
      else
        λ s, match s with
             | EmptyString => false
             | String d s' => Ascii.eqb c d && like pat' s'
             end
  end.

Definition ilike (column pat : string) : bool :=
  like (c_string (lower pat)) (c_string (lower column)).

(** A NULL column makes its [ilike] NULL, which [or_] treats as no match. *)
Definition ilike_null (column : option string) (pat : string) : bool :=
  match column with
  | Some v => ilike v pat
  | None => false
  end.

(** SQLite's [SQLITE_MAX_LIKE_PATTERN_LENGTH]. *)
Definition like_pattern_limit : nat := Z.to_nat 50000.

Definition card_filter (db : DB) (sub_word : string) : Outcome (list (Z * Card)) :=
  let search_term := "%" +:+ sub_word +:+ "%" in
  match map_to_list (cards db) with
  | [] => Returned []
  | rows =>
      if (like_pattern_limit <? String.length search_term)%nat
      then Raised OperationalError
      else Returned
             (filter (λ c, ilike (card_word c.2) search_term
                           || ilike (card_translation c.2) search_term
                           || ilike_null (card_tip c.2) search_term = true)
                     rows)
  end.

(** ** [random.shuffle]

    The generator is the list of its coming draws; [randbelow n] takes the
    next draw modulo [n] (0 once the list is used up). *)

Definition randbelow (rng : list nat) (n : nat) : nat * list nat :=
  match rng with
  | [] => (0, [])
  | r :: rng' => (r `mod` n, rng')
  end%nat.

(** [x[i], x[j] = x[j], x[i]]; an index outside the list raises
    [IndexError], which is [None] here. *)
Definition swap {A} (x : list A) (i j : nat) : option (list A) :=
  a ← x !! i; b ← x !! j; Some (<[j := a]> (<[i := b]> x)).

(** [for i in reversed(range(1, len(x)))]: [i] runs from [len(x) - 1] down
    to 1. *)
Fixpoint shuffle_from {A} (i : nat) (rng : list nat) (x : list A)
  : option (list A * list nat) :=
  match i with
  | O => Some (x, rng)
  | S i' =>
      let (j, rng') := randbelow rng (i + 1) in
      x' ← swap x i j; shuffle_from i' rng' x'
  end.

Definition shuffle {A} (rng : list nat) (x : list A) : option (list A * list nat) :=
  shuffle_from (List.length x - 1) rng x.

(** ** The Flask layer *)

(** [request.form]: the submitted fields in order; [get] answers with the
    first value of the key, or [None]. *)
Definition Form := list (string * string).

Fixpoint form_get (form : Form) (key : string) : option string :=
  match form with
  | [] => None
  | (k, v) :: form' => if decide (k = key) then Some v else form_get form' key
  end.

(** The targets of [url_for]. *)
Inductive Endpoint :=
  | EpIndex
  | EpRegister
  | EpLogin
  | EpShowCardsInDeck (deck_id : Z).

Inductive Body :=
  | Redirect (target : Endpoint)
  | RenderDecks (decks : list (Z * Deck))
  | RenderRegister
  | RenderLogin
  | RenderCards (deck : Z * Deck) (cards : list (Z * Card))
  | RenderEditCard (card : Z * Card)
  | RenderReview (deck : Z * Deck) (cards : list CardDict)
  | BadRequest            (* [request.form[key]] on an absent key: 400 *)
  | InternalServerError   (* an exception leaves the view: 500 *)
  | Unauthorized.         (* [login_required] turned the request away *)

(** What the client gets: the body and the messages flashed on the way,
    each with its category. *)
Record Response := mkResponse {
  body : Body;
  flashes : list (string * string)
}.

Definition msg_user_exists := "Користувач з таким email вже існує.".
Definition msg_registered := "Ви успішно зареєструвалися та увійшли!".
Definition msg_register_failed := "Помилка реєстрації. Спробуйте ще раз.".
Definition msg_logged_in := "Ви успішно увійшли!".
Definition msg_bad_credentials := "Неправильний email або пароль.".
Definition msg_logged_out := "Ви вийшли з акаунта.".
Definition msg_deck_not_found := "Колоду не знайдено або у вас немає доступу.".
Definition msg_card_added := "Картку додано успішно!".
Definition msg_card_required := "Помилка: слово та переклад є обов'язковими.".
Definition msg_card_not_found := "Картку не знайдено або у вас немає доступу.".
Definition msg_card_updated := "Картку оновлено успішно!".
Definition msg_card_deleted := "Картку видалено успішно!".
Definition msg_deck_added := "Колоду додано успішно!".
Definition msg_deck_name_empty := "Помилка: ім'я колоди не може бути порожнім.".
Definition msg_deck_deleted := "Колоду та всі картки в ній видалено успішно!".

(** Flask-Login's answer to a request without a user: it flashes its
    [login_message] under its [login_message_category] and sends the client
    to the [login_view]. *)
Definition msg_login_required := "Please log in to access this page.".

Definition unauthorized : Response :=
  mkResponse Unauthorized [(msg_login_required, "message")].

Definition deck_not_found : Response :=
  mkResponse (Redirect EpIndex) [(msg_deck_not_found, "danger")].

Definition card_not_found : Response :=
  mkResponse (Redirect EpIndex) [(msg_card_not_found, "danger")].

(** [url_for("show_cards_in_deck", deck_id=...)] cannot build the URL when
    the deck id is [None]; the exception ends the request after the message
    was flashed. *)
Definition redirect_to_deck (deck_id : option Z) (flashed : list (string * string))
  : Response :=
  match deck_id with
  | Some deck_id => mkResponse (Redirect (EpShowCardsInDeck deck_id)) flashed
  | None => mkResponse InternalServerError flashed
  end.

(** The truth value of a string: the empty string is false. *)
Definition truthy (s : string) : bool :=
  match s with EmptyString => false | String _ _ => true end.

(** *** Views behind [login_required]; [cur] is [current_user.id] *)

Definition index (db : DB) (cur : Z) : DB * Response :=
  (db, mkResponse (RenderDecks (user_decks db cur)) []).

Definition show_cards_in_deck (db : DB) (cur : Z) (deck_id : Z) : DB * Response :=
  match session_get (decks db) deck_id with
  | Found deck =>
      if decide (deck_user_id deck = Some cur) then
        (db, mkResponse (RenderCards (deck_id, deck) (deck_cards db deck_id)) [])
      else (db, deck_not_found)
  | Missing => (db, deck_not_found)
  | Overflow => (db, mkResponse InternalServerError [])
  end.

Definition add_card_to_deck (db : DB) (cur : Z) (form : Form) (deck_id : Z)
  : DB * Response :=
  match form_get form "word" with
  | None => (db, mkResponse BadRequest [])
  | Some word =>
  match form_get form "translation" with
  | None => (db, mkResponse BadRequest [])
  | Some translation =>
      let tip := form_get form "tip" in
      match session_get (decks db) deck_id with
      | Found deck =>
          if decide (deck_user_id deck = Some cur) then
            if truthy word && truthy translation then
              let db' := (card_create db (Some cur) word translation tip
                            (Some deck_id)).2 in
              (db', mkResponse (Redirect (EpShowCardsInDeck deck_id))
                      [(msg_card_added, "success")])
            else
              (db, mkResponse (Redirect (EpShowCardsInDeck deck_id))
                     [(msg_card_required, "danger")])
          else (db, deck_not_found)
      | Missing => (db, deck_not_found)
  | Overflow => (db, mkResponse InternalServerError [])
      end
  end
  end.

Definition edit_card (db : DB) (cur : Z) (card_id : Z) : DB * Response :=
  match session_get (cards db) card_id with
  | Found card =>
      if decide (card_user_id card = Some cur) then
        (db, mkResponse (RenderEditCard (card_id, card)) [])
      else (db, card_not_found)
  | Missing => (db, card_not_found)
  | Overflow => (db, mkResponse InternalServerError [])
  end.

Definition update_card (db : DB) (cur : Z) (form : Form) (card_id : Z)
  : DB * Response :=
  let word := form_get form "word" in
  let translation := form_get form "translation" in
  let tip := form_get form "tip" in
  match session_get (cards db) card_id with
  | Found card =>
      if decide (card_user_id card = Some cur) then
        let db' := (card_update db card_id word translation tip).2 in
        (db', redirect_to_deck (card_deck_id card) [(msg_card_updated, "success")])
      else (db, card_not_found)
  | Missing => (db, card_not_found)
  | Overflow => (db, mkResponse InternalServerError [])
  end.

Definition delete_card (db : DB) (cur : Z) (card_id : Z) : DB * Response :=
  match session_get (cards db) card_id with
  | Found card =>
      if decide (card_user_id card = Some cur) then
        let deck_id := card_deck_id card in
        let db' := (card_delete_by_id db card_id).2 in
        (db', redirect_to_deck deck_id [(msg_card_deleted, "success")])
      else (db, card_not_found)
  | Missing => (db, card_not_found)
  | Overflow => (db, mkResponse InternalServerError [])
  end.

Definition add_deck (db : DB) (cur : Z) (form : Form) : DB * Response :=
  match form_get form "deck_name" with
  | Some (String _ _ as deck_name) =>
      let db' := (deck_create db deck_name (Some cur)).2 in
      (db', mkResponse (Redirect EpIndex) [(msg_deck_added, "success")])
  | _ => (db, mkResponse (Redirect EpIndex) [(msg_deck_name_empty, "danger")])
  end.

Definition delete_deck (db : DB) (cur : Z) (deck_id : Z) : DB * Response :=
  match session_get (decks db) deck_id with
  | Found deck =>
      if decide (deck_user_id deck = Some cur) then
        let db' := (deck_delete_by_id db deck_id).2 in
        (db', mkResponse (Redirect EpIndex) [(msg_deck_deleted, "success")])
      else (db, deck_not_found)
  | Missing => (db, deck_not_found)
  | Overflow => (db, mkResponse InternalServerError [])
  end.

Definition review_deck (db : DB) (cur : Z) (rng : list nat) (deck_id : Z)
  : DB * Response :=
  match session_get (decks db) deck_id with
  | Found deck =>
      if decide (deck_user_id deck = Some cur) then
        let cards := to_dict <$> deck_cards db deck_id in
        match shuffle rng cards with
        | Some (cards, _) =>
            (db, mkResponse (RenderReview (deck_id, deck) cards) [])
        | None => (db, mkResponse InternalServerError [])
        end
      else (db, deck_not_found)
  | Missing => (db, deck_not_found)
  | Overflow => (db, mkResponse InternalServerError [])
  end.

(** *** Routes and the session *)

Inductive Method := GET | POST.

Inductive Route :=
  | RIndex
  | RRegister (method : Method)
  | RLogin (method : Method)
  | RLogout
  | RShowCardsInDeck (deck_id : Z)
  | RAddCardToDeck (deck_id : Z)
  | REditCard (card_id : Z)
  | RUpdateCard (card_id : Z)
  | RDeleteCard (card_id : Z)
  | RAddDeck
  | RDeleteDeck (deck_id : Z)
  | RReviewDeck (deck_id : Z).

(** What a request brings besides its route: the user id kept in the
    session cookie, the form, and the random choices the server makes while
    it serves the request. *)
Record Request := mkRequest {
  session_user_id : option Z;
  form : Form;
  salt : string;
  rng : list nat
}.

(** [load_user] *)
Definition load_user (db : DB) (user_id : Z) : option (Z * User) :=
  (λ u, (user_id, u)) <$> users db !! user_id.

(** [current_user]: the user the session names, when the row still exists. *)
Definition current_user (db : DB) (req : Request) : option (Z * User) :=
  session_user_id req ≫= load_user db.

Definition login_required (db : DB) (req : Request) (view : Z → DB * Response)
  : DB * option Z * Response :=
  match current_user db req with
  | Some user => let r := view user.1 in (r.1, session_user_id req, r.2)
  | None => (db, session_user_id req, unauthorized)
  end.

Section Views.
Variable pwd_context : CryptContext.

Definition register (db : DB) (req : Request) (method : Method)
  : DB * option Z * Response :=
  match method with
  | POST =>
      let name := form_get (form req) "name" in
      let email := form_get (form req) "email" in
      let password := form_get (form req) "password" in
      match email ≫= user_get_by_email db with
      | Some _ =>
          (db, session_user_id req,
           mkResponse (Redirect EpRegister) [(msg_user_exists, "danger")])
      | None =>
          match email, password with
          | Some email, Some password =>
              match user_create pwd_context db (salt req) name email password with
              | (Some user, db') =>
                  (db', Some user.1,
                   mkResponse (Redirect EpIndex) [(msg_registered, "success")])
              | (None, db') =>
                  (db', session_user_id req,
                   mkResponse RenderRegister [(msg_register_failed, "danger")])
              end
          | _, _ =>
              (* a missing email or password raises in [hash] or at the
                 commit, and nothing is stored *)
              (db, session_user_id req, mkResponse InternalServerError [])
          end
      end
  | GET => (db, session_user_id req, mkResponse RenderRegister [])
  end.

Definition login (db : DB) (req : Request) (method : Method)
  : DB * option Z * Response :=
  match current_user db req with
  | Some _ => (db, session_user_id req, mkResponse (Redirect EpIndex) [])
  | None =>
      match method with
      | POST =>
          match form_get (form req) "email" ≫= user_get_by_email db with
          | Some user =>
              match form_get (form req) "password" with
              | Some password =>
                  if verify_password pwd_context user.2 password then
                    (db, Some user.1,
                     mkResponse (Redirect EpIndex) [(msg_logged_in, "success")])
                  else
                    (db, session_user_id req,
                     mkResponse RenderLogin [(msg_bad_credentials, "danger")])
              | None =>
                  (* [verify] raises on a missing password *)
                  (db, session_user_id req, mkResponse InternalServerError [])
              end
          | None =>
              (db, session_user_id req,
               mkResponse RenderLogin [(msg_bad_credentials, "danger")])
          end
      | GET => (db, session_user_id req, mkResponse RenderLogin [])
      end
  end.

Definition logout (db : DB) (req : Request) : DB * option Z * Response :=
  match current_user db req with
  | Some _ =>
      (db, None, mkResponse (Redirect EpLogin) [(msg_logged_out, "success")])
  | None => (db, session_user_id req, unauthorized)
  end.

(** The dispatch of a request to its view. *)
Definition handle (db : DB) (req : Request) (route : Route)
  : DB * option Z * Response :=
  match route with
  | RIndex => login_required db req (index db)
  | RRegister method => register db req method
  | RLogin method => login db req method
  | RLogout => logout db req
  | RShowCardsInDeck deck_id =>
      login_required db req (λ cur, show_cards_in_deck db cur deck_id)
  | RAddCardToDeck deck_id =>
      login_required db req (λ cur, add_card_to_deck db cur (form req) deck_id)
  | REditCard card_id =>
      login_required db req (λ cur, edit_card db cur card_id)
  | RUpdateCard card_id =>
      login_required db req (λ cur, update_card db cur (form req) card_id)
  | RDeleteCard card_id =>
      login_required db req (λ cur, delete_card db cur card_id)
  | RAddDeck => login_required db req (λ cur, add_deck db cur (form req))
  | RDeleteDeck deck_id =>
      login_required db req (λ cur, delete_deck db cur deck_id)
  | RReviewDeck deck_id =>
      login_required db req (λ cur, review_deck db cur (rng req) deck_id)
  end.

(** ** The transitions of the database

    Every way the program changes the tables: a call of an accessor or a
    request served by a view. *)
Inductive Op :=
  | OpUserCreate (salt : string) (name : option string) (email password : string)
  | OpUserUpdateName (user_id : Z) (name : option string)
  | OpUserChangePassword (salt : string) (user_id : Z) (old_password new_password : string)
  | OpUserDelete (user_id : Z)
  | OpDeckCreate (name : string) (user_id : option Z)
  | OpDeckUpdate (deck_id : Z) (name : string)
  | OpDeckDelete (deck_id : Z)
  | OpCardCreate (user_id : option Z) (word translation : string)
      (tip : option string) (deck_id : option Z)
  | OpCardUpdate (card_id : Z) (word translation tip : option string)
  | OpCardDelete (card_id : Z)
  | OpRequest (req : Request) (route : Route).

Definition step (db : DB) (op : Op) : DB :=
  match op with
  | OpUserCreate salt name email password =>
      (user_create pwd_context db salt name email password).2
  | OpUserUpdateName user_id name => (user_update_name db user_id name).2
  | OpUserChangePassword salt user_id old_password new_password =>
      (user_change_password pwd_context db salt user_id old_password new_password).2
  | OpUserDelete user_id => (user_delete_by_id db user_id).2
  | OpDeckCreate name user_id => (deck_create db name user_id).2
  | OpDeckUpdate deck_id name => (deck_update db deck_id name).2
  | OpDeckDelete deck_id => (deck_delete_by_id db deck_id).2
  | OpCardCreate user_id word translation tip deck_id =>
      (card_create db user_id word translation tip deck_id).2
  | OpCardUpdate card_id word translation tip =>
      (card_update db card_id word translation tip).2
  | OpCardDelete card_id => (card_delete_by_id db card_id).2
  | OpRequest req route => (handle db req route).1.1
  end.

(** Two routes are told apart by nothing the client can see, and the
    request changes neither the database nor the session. *)
Definition same_outcome (db : DB) (req : Request) (r1 r2 : Route) : Prop :=
  handle db req r1 = handle db req r2 ∧
  (handle db req r1).1 = (db, session_user_id req).
End Views.

(** ** Predicates of the properties *)

(** Every deck stored in both databases has the same owner in both. *)
Definition owners_kept (db db' : DB) : Prop :=
  ∀ id deck deck',
    decks db !! id = Some deck → decks db' !! id = Some deck' →
    deck_user_id deck' = deck_user_id deck.



(** The string begins in the middle of a character.  No encoded text does. *)
Definition starts_with_continuation (s : string) : bool :=
  match s with
  | EmptyString => false
  | String c _ => is_continuation c
  end.







(** ** A database to run the program on

    Two users; Alice has the deck and the two cards of [setup_database],
    Bob a deck with one card.  [demo_context] stands in for bcrypt: it marks
    the password instead of hashing it. *)

Definition demo_context : CryptContext :=
  {| hash := λ salt password, "$" +:+ password;
     verify := λ password stored, bool_decide (stored = "$" +:+ password) |}.

Definition alice : User := mkUser (Some "Alice") "alice@example.com" "$password123".
Definition bob : User := mkUser (Some "Bob") "bob@example.com" "$hunter2".

Definition alice_deck : Deck := mkDeck "General Vocabulary" (Some 1).
Definition bob_deck : Deck := mkDeck "Bob's deck" (Some 2).

Definition card_hello : Card :=
  mkCard (Some 1) "hello" "привіт" (Some "Привітання") (Some 1).
Definition card_world : Card :=
  mkCard (Some 1) "world" "світ" (Some "Наша планета") (Some 1).
Definition card_bob : Card := mkCard (Some 2) "cat" "кіт" None (Some 2).

Definition demo_db : DB :=
  {| users := <[1 := alice]> (<[2 := bob]> ∅);
     decks := <[1 := alice_deck]> (<[2 := bob_deck]> ∅);
     cards := <[1 := card_hello]> (<[2 := card_world]> (<[3 := card_bob]> ∅)) |}.

(** A request of Alice, logged in. *)
Definition alice_request (form : Form) : Request :=
  {| session_user_id := Some 1; form := form; salt := "salt"; rng := [5; 1; 0]%nat |}.

(** ** [setup_database]

    The tables exist already; the sample rows are added when no user is
    named Alice.  The three commits follow one another in one session.  The
    [unique=True] of [User.email] makes the first commit raise when another
    user holds Alice's email; that is [None], and nothing was stored. *)

Definition setup_database (pwd_context : CryptContext) (db : DB) (salt : string)
  : option DB :=
  match head (filter (λ u, user_name u.2 = Some "Alice") (map_to_list (users db))) with
  | Some _ => Some db
  | None =>
      match user_get_by_email db "alice@example.com" with
      | Some _ => None
      | None =>
          let user := {| user_name := Some "Alice";
                         user_email := "alice@example.com";
                         user_password := hash pwd_context salt "password123" |} in
          let user_id := next_id (users db) in
          let deck := {| deck_name := "General Vocabulary";
                         deck_user_id := Some user_id |} in
          let deck_id := next_id (decks db) in
          let card1 := {| card_user_id := Some user_id;
                          card_word := "hello";
                          card_translation := "привіт";
                          card_tip := Some "Привітання";
                          card_deck_id := Some deck_id |} in
          let card2 := {| card_user_id := Some user_id;
                          card_word := "world";
                          card_translation := "світ";
                          card_tip := Some "Наша планета";
                          card_deck_id := Some deck_id |} in
          let card1_id := next_id (cards db) in
          let cards1 := <[card1_id := card1]> (cards db) in
          let card2_id := next_id cards1 in
          Some {| users := <[user_id := user]> (users db);
                  decks := <[deck_id := deck]> (decks db);
                  cards := <[card2_id := card2]> cards1 |}
      end
  end.

(** ** Helpers of the statements *)

(** The later value wins.  Argument by argument, [b] where it is given and
    [a] otherwise. *)
Definition later {A} (a b : option A) : option A :=
  match b with Some _ => b | None => a end.

(** The sample rows alone, as [setup_database] stores them in an empty
    database under [demo_context]. *)
Definition sample_db : DB :=
  {| users := <[1 := alice]> ∅;
     decks := <[1 := alice_deck]> ∅;
     cards := <[2 := card_world]> (<[1 := card_hello]> ∅) |}.

(** A request that comes without a session. *)
Definition anonymous_request (form : Form) : Request :=
  {| session_user_id := None; form := form; salt := "salt"; rng := [] |}.

(** ** Invariants of the tables *)

(** No two users share an email ([unique=True]). *)
Definition unique_emails (db : DB) : Prop :=
  ∀ i j u v,
    users db !! i = Some u → users db !! j = Some v →
    user_email u = user_email v → i = j.

(** Every user of [db'] was a user of [db] under the same id and with the
    same email. *)
Definition users_from (db db' : DB) : Prop :=
  ∀ j v', users db' !! j = Some v' →
          ∃ v, users db !! j = Some v ∧ user_email v' = user_email v.

(** Every card that is filed in a deck names a stored deck, and the card
    and the deck have the same owner. *)
Definition well_filed (db : DB) : Prop :=
  ∀ id card deck_id,
    cards db !! id = Some card → card_deck_id card = Some deck_id →
    ∃ deck, decks db !! deck_id = Some deck ∧ card_user_id card = deck_user_id deck.

(** What a served request can do to the database: nothing, or one accessor
    call that the view makes after its checks. *)
Inductive request_effect (pwd_context : CryptContext) (db : DB) (req : Request)
  : DB → Prop :=
  | effect_none : request_effect pwd_context db req db
  | effect_register name email password :
      user_get_by_email db email = None →
      request_effect pwd_context db req
        (user_create pwd_context db (salt req) name email password).2
  | effect_add_card cur user deck_id deck word translation tip :
      current_user db req = Some (cur, user) →
      decks db !! deck_id = Some deck → deck_user_id deck = Some cur →
      truthy word = true → truthy translation = true →
      request_effect pwd_context db req
        (card_create db (Some cur) word translation tip (Some deck_id)).2
  | effect_update_card cur user card_id card word translation tip :
      current_user db req = Some (cur, user) →
      cards db !! card_id = Some card → card_user_id card = Some cur →
      request_effect pwd_context db req
        (card_update db card_id word translation tip).2
  | effect_delete_card cur user card_id card :
      current_user db req = Some (cur, user) →
      cards db !! card_id = Some card → card_user_id card = Some cur →
      request_effect pwd_context db req (card_delete_by_id db card_id).2
  | effect_add_deck cur user deck_name :
      current_user db req = Some (cur, user) →
      truthy deck_name = true →
      request_effect pwd_context db req (deck_create db deck_name (Some cur)).2
  | effect_delete_deck cur user deck_id deck :
      current_user db req = Some (cur, user) →
      decks db !! deck_id = Some deck → deck_user_id deck = Some cur →
      request_effect pwd_context db req (deck_delete_by_id db deck_id).2.

(** * Properties *)

(** ** Fresh primary keys *)

Lemma max_id_ge {A} (m : gmap Z A) (k : Z) (v : A) :
  m !! k = Some v → k ≤ max_id m.
Proof.
  intros Hk. unfold max_id.
  assert (Hin : k ∈ (map_to_list m).*1).
  { apply list_elem_of_fmap. exists (k, v). split; [done|].
    by apply elem_of_map_to_list. }
  clear Hk. induction Hin as [k l | k k' l Hin IH]; cbn [foldr].
  - apply Z.le_max_l.
  - etrans; [exact IH | apply Z.le_max_r].
Qed.

Lemma next_id_fresh {A} (m : gmap Z A) : m !! next_id m = None.
Proof.
  destruct (m !! next_id m) as [v|] eqn:Hk; [|done].
  apply max_id_ge in Hk. unfold next_id in Hk. lia.
Qed.

(** ** Partial update of a card *)

(** C3: [card_update] on an existing card stores each supplied field and
    keeps each omitted one; the card stays under its id with its owner and
    its deck, and no other row of any table changes. *)
Theorem card_update_frame (db : DB) (card_id : Z) (card : Card)
    (word translation tip : option string) :
  cards db !! card_id = Some card →
  ∃ card',
    (card_update db card_id word translation tip).1 = Some (card_id, card') ∧
    card_get_by_id (card_update db card_id word translation tip).2 card_id
      = Some (card_id, card') ∧
    (∀ w, word = Some w → card_word card' = w) ∧
    (word = None → card_word card' = card_word card) ∧
    (∀ t, translation = Some t → card_translation card' = t) ∧
    (translation = None → card_translation card' = card_translation card) ∧
    (∀ t, tip = Some t → card_tip card' = Some t) ∧
    (tip = None → card_tip card' = card_tip card) ∧
    card_user_id card' = card_user_id card ∧
    card_deck_id card' = card_deck_id card ∧
    (∀ other, other ≠ card_id →
       cards (card_update db card_id word translation tip).2 !! other
         = cards db !! other) ∧
    users (card_update db card_id word translation tip).2 = users db ∧
    decks (card_update db card_id word translation tip).2 = decks db.
Proof.
  intros Hcard. unfold card_update, card_get_by_id. rewrite Hcard. simpl.
  eexists. split; [reflexivity|].
  split; [by rewrite lookup_insert_eq|].
  repeat split; simpl; try (intros; subst; reflexivity).
  intros other Hne. by rewrite lookup_insert_ne.
Qed.

(** ** [session.get] *)

Lemma session_get_Some {A} (table : gmap Z A) (id : Z) (row : A) :
  table !! id = Some row → session_get table id = Found row.
Proof. unfold session_get. by intros ->. Qed.

Lemma session_get_Found {A} (table : gmap Z A) (id : Z) (row : A) :
  session_get table id = Found row → table !! id = Some row.
Proof.
  unfold session_get. destruct (table !! id); [congruence|]. by case_decide.
Qed.

Lemma session_get_None {A} (table : gmap Z A) (id : Z) :
  table !! id = None → int64 id → session_get table id = Missing.
Proof. unfold session_get. intros -> Hid. by rewrite decide_True. Qed.

Lemma session_get_out_of_range {A} (table : gmap Z A) (id : Z) :
  table !! id = None → ¬ int64 id → session_get table id = Overflow.
Proof. unfold session_get. intros -> Hid. by rewrite decide_False. Qed.

Lemma user_delete_by_id_db (db : DB) (id : Z) :
  (user_delete_by_id db id).2
  = match users db !! id with Some _ => orm_delete_user db id | None => db end.
Proof.
  unfold user_delete_by_id, session_get.
  destruct (users db !! id); [done|]. by case_decide.
Qed.

Lemma deck_delete_by_id_db (db : DB) (id : Z) :
  (deck_delete_by_id db id).2
  = match decks db !! id with Some _ => orm_delete_deck db id | None => db end.
Proof.
  unfold deck_delete_by_id, session_get.
  destruct (decks db !! id); [done|]. by case_decide.
Qed.

Lemma card_delete_by_id_db (db : DB) (id : Z) :
  (card_delete_by_id db id).2
  = match cards db !! id with
    | Some _ => {| users := users db; decks := decks db;
                   cards := delete id (cards db) |}
    | None => db
    end.
Proof.
  unfold card_delete_by_id, session_get.
  destruct (cards db !! id); [done|]. by case_decide.
Qed.

(** ** Deleting rows *)

Lemma user_delete_by_id_result (db : DB) (id : Z) :
  int64 id →
  ((user_delete_by_id db id).1 = Returned true ↔ is_Some (users db !! id)) ∧
  ((user_delete_by_id db id).1 = Returned false ↔ users db !! id = None) ∧
  users (user_delete_by_id db id).2 !! id = None ∧
  ((user_delete_by_id db id).1 = Returned false → (user_delete_by_id db id).2 = db).
Proof.
  intros Hid. unfold user_delete_by_id.
  destruct (users db !! id) as [u|] eqn:Hu.
  - rewrite (session_get_Some _ _ _ Hu). simpl.
    split; [by split; eauto|]. split; [done|].
    split; [apply lookup_delete_eq | done].
  - rewrite (session_get_None _ _ Hu Hid). simpl.
    split; [split; [done | by intros [? ?]] | done].
Qed.

Lemma deck_delete_by_id_result (db : DB) (id : Z) :
  int64 id →
  ((deck_delete_by_id db id).1 = Returned true ↔ is_Some (decks db !! id)) ∧
  ((deck_delete_by_id db id).1 = Returned false ↔ decks db !! id = None) ∧
  decks (deck_delete_by_id db id).2 !! id = None ∧
  ((deck_delete_by_id db id).1 = Returned false → (deck_delete_by_id db id).2 = db).
Proof.
  intros Hid. unfold deck_delete_by_id.
  destruct (decks db !! id) as [d|] eqn:Hd.
  - rewrite (session_get_Some _ _ _ Hd). simpl.
    split; [by split; eauto|]. split; [done|].
    split; [apply lookup_delete_eq | done].
  - rewrite (session_get_None _ _ Hd Hid). simpl.
    split; [split; [done | by intros [? ?]] | done].
Qed.

Lemma card_delete_by_id_result (db : DB) (id : Z) :
  int64 id →
  ((card_delete_by_id db id).1 = Returned true ↔ is_Some (cards db !! id)) ∧
  ((card_delete_by_id db id).1 = Returned false ↔ cards db !! id = None) ∧
  cards (card_delete_by_id db id).2 !! id = None ∧
  ((card_delete_by_id db id).1 = Returned false → (card_delete_by_id db id).2 = db).
Proof.
  intros Hid. unfold card_delete_by_id.
  destruct (cards db !! id) as [c|] eqn:Hc.
  - rewrite (session_get_Some _ _ _ Hc). simpl.
    split; [by split; eauto|]. split; [done|].
    split; [apply lookup_delete_eq | done].
  - rewrite (session_get_None _ _ Hc Hid). simpl.
    split; [split; [done | by intros [? ?]] | done].
Qed.

(** C8, for ids that SQLite can hold: for every id in the signed 64-bit
    range each delete accessor returns [True] exactly when a row with the id
    was stored, and returns [False], with the database as it was, exactly
    when none was; it does not raise, and after the call no row has the id.
    (For an id outside the range and not stored, [session.get] raises.) *)
Theorem delete_by_id_reports_existence (db : DB) (id : Z) :
  int64 id →
  (((user_delete_by_id db id).1 = Returned true ↔ is_Some (users db !! id)) ∧
   ((user_delete_by_id db id).1 = Returned false ↔ users db !! id = None) ∧
   users (user_delete_by_id db id).2 !! id = None ∧
   ((user_delete_by_id db id).1 = Returned false →
      (user_delete_by_id db id).2 = db)) ∧
  (((deck_delete_by_id db id).1 = Returned true ↔ is_Some (decks db !! id)) ∧
   ((deck_delete_by_id db id).1 = Returned false ↔ decks db !! id = None) ∧
   decks (deck_delete_by_id db id).2 !! id = None ∧
   ((deck_delete_by_id db id).1 = Returned false →
      (deck_delete_by_id db id).2 = db)) ∧
  (((card_delete_by_id db id).1 = Returned true ↔ is_Some (cards db !! id)) ∧
   ((card_delete_by_id db id).1 = Returned false ↔ cards db !! id = None) ∧
   cards (card_delete_by_id db id).2 !! id = None ∧
   ((card_delete_by_id db id).1 = Returned false →
      (card_delete_by_id db id).2 = db)).
Proof.
  intros Hid. split; [by apply user_delete_by_id_result|].
  split; [by apply deck_delete_by_id_result | by apply card_delete_by_id_result].
Qed.

(** ** Cascading delete *)

Lemma orm_delete_deck_cards (db : DB) (deck_id card_id : Z) (card : Card) :
  cards (orm_delete_deck db deck_id) !! card_id = Some card →
  cards db !! card_id = Some card ∧ card_deck_id card ≠ Some deck_id.
Proof. unfold orm_delete_deck; simpl. by intros ?%map_lookup_filter_Some. Qed.

Lemma orm_delete_user_decks (db : DB) (user_id deck_id : Z) (deck : Deck) :
  decks (orm_delete_user db user_id) !! deck_id = Some deck ↔
  decks db !! deck_id = Some deck ∧ deck_user_id deck ≠ Some user_id.
Proof. unfold orm_delete_user; simpl. apply map_lookup_filter_Some. Qed.

Lemma orm_delete_user_cards (db : DB) (user_id card_id : Z) (card : Card) :
  cards (orm_delete_user db user_id) !! card_id = Some card ↔
  cards db !! card_id = Some card ∧
  card_user_id card ≠ Some user_id ∧ ¬ in_deck_of_user db user_id card.
Proof. unfold orm_delete_user; simpl. apply map_lookup_filter_Some. Qed.

(** C2: deleting a stored deck removes the deck and every card filed in it,
    so [card_get_by_id] finds none of them and no remaining card names the
    deck; deleting a stored user removes the user, every deck and every card
    of the user and every card filed in one of those decks, so no remaining
    deck or card names the user and no remaining card names a deck that was
    removed.  Each half holds for every database: the deck half needs no
    user, the user half no deck. *)
Theorem cascade_delete (db : DB) :
  (∀ deck_id deck,
     decks db !! deck_id = Some deck →
     deck_get_by_id (deck_delete_by_id db deck_id).2 deck_id = None ∧
     (∀ card_id card,
        cards db !! card_id = Some card → card_deck_id card = Some deck_id →
        card_get_by_id (deck_delete_by_id db deck_id).2 card_id = None) ∧
     (∀ card_id card,
        cards (deck_delete_by_id db deck_id).2 !! card_id = Some card →
        card_deck_id card ≠ Some deck_id)) ∧
  (∀ user_id user,
     users db !! user_id = Some user →
     user_get_by_id (user_delete_by_id db user_id).2 user_id = None ∧
     (∀ id d,
        decks db !! id = Some d → deck_user_id d = Some user_id →
        deck_get_by_id (user_delete_by_id db user_id).2 id = None) ∧
     (∀ id c,
        cards db !! id = Some c → card_user_id c = Some user_id →
        card_get_by_id (user_delete_by_id db user_id).2 id = None) ∧
     (∀ id c did d,
        cards db !! id = Some c → card_deck_id c = Some did →
        decks db !! did = Some d → deck_user_id d = Some user_id →
        card_get_by_id (user_delete_by_id db user_id).2 id = None) ∧
     (∀ id d,
        decks (user_delete_by_id db user_id).2 !! id = Some d →
        deck_user_id d ≠ Some user_id) ∧
     (∀ id c,
        cards (user_delete_by_id db user_id).2 !! id = Some c →
        card_user_id c ≠ Some user_id ∧
        ∀ did, card_deck_id c = Some did → is_Some (decks db !! did) →
               is_Some (decks (user_delete_by_id db user_id).2 !! did))).
Proof.
  split.
  - intros deck_id deck Hdeck.
    unfold deck_delete_by_id, deck_get_by_id, card_get_by_id.
    rewrite (session_get_Some _ _ _ Hdeck). simpl.
    split; [by rewrite lookup_delete_eq|]. split.
    + intros card_id card Hc Hin.
      destruct (filter _ (cards db) !! card_id) as [c'|] eqn:Hf; [|done].
      apply map_lookup_filter_Some in Hf as [Hc' Hne]. simpl in Hne. congruence.
    + intros card_id card Hc.
      by apply map_lookup_filter_Some in Hc as [_ Hne].
  - intros user_id user Huser.
    unfold user_delete_by_id, user_get_by_id, deck_get_by_id, card_get_by_id.
    rewrite (session_get_Some _ _ _ Huser). simpl.
    split; [by rewrite lookup_delete_eq|]. split; [|split; [|split; [|split]]].
    + intros id d Hd Hown.
      destruct (filter _ (decks db) !! id) as [d'|] eqn:Hf; [|done].
      apply map_lookup_filter_Some in Hf as [Hd' Hne]. simpl in Hne. congruence.
    + intros id c Hc Hown.
      destruct (filter _ (cards db) !! id) as [c'|] eqn:Hf; [|done].
      apply map_lookup_filter_Some in Hf as [Hc' [Hne _]]. simpl in Hne. congruence.
    + intros id c did d Hc Hdid Hd Hown.
      destruct (filter _ (cards db) !! id) as [c'|] eqn:Hf; [|done].
      apply map_lookup_filter_Some in Hf as [Hc' [_ Hnin]]. simpl in Hnin.
      destruct Hnin. assert (c' = c) as -> by congruence.
      unfold in_deck_of_user. rewrite Hdid. simpl. by rewrite Hd.
    + intros id d Hd. by apply map_lookup_filter_Some in Hd as [_ Hne].
    + intros id c Hc. apply map_lookup_filter_Some in Hc as [Hc [Hne Hnin]].
      simpl in *. split; [done|].
      intros did Hdid [d Hd]. exists d.
      apply map_lookup_filter_Some. split; [done|]. simpl.
      intros Hown. apply Hnin. unfold in_deck_of_user.
      rewrite Hdid. simpl. by rewrite Hd.
Qed.

(** ** Creating users *)

Lemma user_get_by_email_Some (db : DB) (email : string) (r : Z * User) :
  user_get_by_email db email = Some r →
  users db !! r.1 = Some r.2 ∧ user_email r.2 = email.
Proof.
  unfold user_get_by_email. intros Hhead.
  apply head_Some_elem_of, list_elem_of_filter in Hhead as [Hmail Hin].
  destruct r as [id u]. by apply elem_of_map_to_list in Hin.
Qed.

Lemma user_get_by_email_None (db : DB) (email : string) :
  user_get_by_email db email = None ↔
  ∀ id u, users db !! id = Some u → user_email u ≠ email.
Proof.
  unfold user_get_by_email. rewrite head_None. split.
  - intros Hnil id u Hu Hmail.
    apply (filter_nil_not_elem_of _ _ (id, u)) in Hnil; [|done].
    apply Hnil. by apply elem_of_map_to_list.
  - intros Hall.
    destruct (filter _ (map_to_list (users db))) as [|[id u] l] eqn:Hf; [done|].
    assert (Hin : (id, u) ∈ filter (λ u0 : Z * User, user_email u0.2 = email)
                    (map_to_list (users db))) by (rewrite Hf; left).
    apply list_elem_of_filter in Hin as [Hmail Hin].
    apply elem_of_map_to_list in Hin. by destruct (Hall id u Hin).
Qed.

Section CredentialProperties.
Variable pwd_context : CryptContext.

(** C4: with the email already stored [user_create] answers [None] and
    leaves the database, and so the number of users, as it was; with a
    new email it stores and returns one more user, under a new id, whose
    password field is the hash that the credential service computed from
    the given password.  That field differs from the password for every
    credential service that never returns its input. *)
Theorem user_create_spec (db : DB) (salt : string) (name : option string)
    (email password : string) :
  ((∃ id u, users db !! id = Some u ∧ user_email u = email) →
     user_create pwd_context db salt name email password = (None, db) ∧
     size (users (user_create pwd_context db salt name email password).2)
       = size (users db)) ∧
  ((∀ id u, users db !! id = Some u → user_email u ≠ email) →
     ∃ id u,
       (user_create pwd_context db salt name email password).1 = Some (id, u) ∧
       users db !! id = None ∧
       users (user_create pwd_context db salt name email password).2
         = <[id := u]> (users db) ∧
       size (users (user_create pwd_context db salt name email password).2)
         = S (size (users db)) ∧
       user_name u = name ∧
       user_email u = email ∧
       user_password u = hash pwd_context salt password ∧
       ((∀ s p, hash pwd_context s p ≠ p) → user_password u ≠ password)).
Proof.
  unfold user_create. split.
  - intros (id & u & Hu & Hmail).
    destruct (user_get_by_email db email) as [r|] eqn:Hget; [done|].
    rewrite user_get_by_email_None in Hget. by destruct (Hget id u Hu).
  - intros Hnew. apply user_get_by_email_None in Hnew. rewrite Hnew. simpl.
    eexists _, _. split; [reflexivity|].
    split; [apply next_id_fresh|]. split; [reflexivity|].
    split; [apply map_size_insert_None, next_id_fresh|].
    repeat split. intros Hhash. apply Hhash.
Qed.

(** ** The owner of a deck *)

Lemma owners_kept_same_decks (db db' : DB) :
  decks db' = decks db → owners_kept db db'.
Proof. intros Heq id d d' Hd Hd'. rewrite Heq in Hd'. congruence. Qed.

Lemma owners_kept_refl (db : DB) : owners_kept db db.
Proof. by apply owners_kept_same_decks. Qed.

Lemma deck_create_owners (db : DB) name user_id :
  owners_kept db (deck_create db name user_id).2.
Proof.
  intros id d d' Hd Hd'. simpl in Hd'.
  rewrite lookup_insert_ne in Hd'; [congruence|].
  intros <-. by rewrite next_id_fresh in Hd.
Qed.

Lemma deck_update_owners (db : DB) deck_id name :
  owners_kept db (deck_update db deck_id name).2.
Proof.
  unfold deck_update. destruct (decks db !! deck_id) as [deck|] eqn:Hdeck;
    [|apply owners_kept_refl].
  intros id d d' Hd Hd'. simpl in Hd'.
  destruct (decide (deck_id = id)) as [->|Hne].
  - rewrite lookup_insert_eq in Hd'. by simplify_eq.
  - rewrite lookup_insert_ne in Hd' by done. congruence.
Qed.

Lemma deck_delete_by_id_owners (db : DB) deck_id :
  owners_kept db (deck_delete_by_id db deck_id).2.
Proof.
  rewrite deck_delete_by_id_db. destruct (decks db !! deck_id);
    [|apply owners_kept_refl].
  intros id dk dk' Hd Hd'. simpl in Hd'.
  apply lookup_delete_Some in Hd' as [_ Hd']. congruence.
Qed.

Lemma user_delete_by_id_owners (db : DB) user_id :
  owners_kept db (user_delete_by_id db user_id).2.
Proof.
  rewrite user_delete_by_id_db. destruct (users db !! user_id);
    [|apply owners_kept_refl].
  intros id dk dk' Hd Hd'. apply orm_delete_user_decks in Hd' as [Hd' _].
  congruence.
Qed.

Lemma user_create_owners (db : DB) salt name email password :
  owners_kept db (user_create pwd_context db salt name email password).2.
Proof.
  apply owners_kept_same_decks. unfold user_create.
  by destruct (user_get_by_email db email).
Qed.

Lemma user_update_name_owners (db : DB) user_id name :
  owners_kept db (user_update_name db user_id name).2.
Proof.
  apply owners_kept_same_decks. unfold user_update_name.
  by destruct (users db !! user_id).
Qed.

Lemma user_change_password_owners (db : DB) salt user_id old new :
  owners_kept db (user_change_password pwd_context db salt user_id old new).2.
Proof.
  apply owners_kept_same_decks. unfold user_change_password.
  destruct (users db !! user_id); [|done]. by destruct (verify_password _ _ _).
Qed.

Lemma card_update_owners (db : DB) card_id word translation tip :
  owners_kept db (card_update db card_id word translation tip).2.
Proof.
  apply owners_kept_same_decks. unfold card_update.
  by destruct (cards db !! card_id).
Qed.

Lemma card_delete_by_id_owners (db : DB) card_id :
  owners_kept db (card_delete_by_id db card_id).2.
Proof.
  apply owners_kept_same_decks. rewrite card_delete_by_id_db.
  by destruct (cards db !! card_id).
Qed.

Lemma login_required_owners (db : DB) req view :
  (∀ cur, owners_kept db (view cur).1) →
  owners_kept db (login_required db req view).1.1.
Proof.
  intros Hview. unfold login_required.
  destruct (current_user db req); simpl; [apply Hview | apply owners_kept_refl].
Qed.

Lemma handle_owners (db : DB) req route :
  owners_kept db (handle pwd_context db req route).1.1.
Proof.
  destruct route; simpl; try (apply login_required_owners; intros cur).
  - apply owners_kept_refl.
  - unfold register. destruct method; [apply owners_kept_refl|].
    destruct (form_get (form req) "email" ≫= _); [apply owners_kept_refl|].
    destruct (form_get (form req) "email") as [email|]; [|apply owners_kept_refl].
    destruct (form_get (form req) "password") as [password|];
      [|apply owners_kept_refl].
    pose proof (user_create_owners db (salt req)
                  (form_get (form req) "name") email password) as Hc.
    by destruct (user_create _ _ _ _ _ _) as [[user|] db'].
  - unfold login. destruct (current_user db req); [apply owners_kept_refl|].
    destruct method; [apply owners_kept_refl|].
    destruct (form_get (form req) "email" ≫= _); [|apply owners_kept_refl].
    destruct (form_get (form req) "password"); [|apply owners_kept_refl].
    destruct (verify_password _ _ _); apply owners_kept_refl.
  - unfold logout. destruct (current_user db req); apply owners_kept_refl.
  - unfold show_cards_in_deck. destruct (session_get (decks db) deck_id);
      [case_decide|..]; apply owners_kept_refl.
  - unfold add_card_to_deck.
    destruct (form_get (form req) "word") as [word|]; [|apply owners_kept_refl].
    destruct (form_get (form req) "translation") as [translation|];
      [|apply owners_kept_refl].
    destruct (session_get (decks db) deck_id); [|apply owners_kept_refl..].
    case_decide; [|apply owners_kept_refl].
    destruct (truthy word && truthy translation); [|apply owners_kept_refl].
    by apply owners_kept_same_decks.
  - unfold edit_card. destruct (session_get (cards db) card_id);
      [case_decide|..]; apply owners_kept_refl.
  - unfold update_card. destruct (session_get (cards db) card_id);
      [|apply owners_kept_refl..].
    case_decide; [apply card_update_owners | apply owners_kept_refl].
  - unfold delete_card. destruct (session_get (cards db) card_id);
      [|apply owners_kept_refl..].
    case_decide; [apply card_delete_by_id_owners | apply owners_kept_refl].
  - unfold add_deck. destruct (form_get (form req) "deck_name") as [[|c s]|];
      try apply owners_kept_refl. apply deck_create_owners.
  - unfold delete_deck. destruct (session_get (decks db) deck_id);
      [|apply owners_kept_refl..].
    case_decide; [apply deck_delete_by_id_owners | apply owners_kept_refl].
  - unfold review_deck. destruct (session_get (decks db) deck_id);
      [|apply owners_kept_refl..].
    case_decide; [|apply owners_kept_refl].
    destruct (shuffle _ _) as [[shown rng']|]; apply owners_kept_refl.
Qed.

(** C9: no transition of the database, be it an accessor call or a served
    request, changes the owner of a deck: a deck stored before the
    transition and still stored after it has the same [user_id]. *)
Theorem deck_owner_never_changes (db : DB) (op : Op) (id : Z) (deck deck' : Deck) :
  decks db !! id = Some deck →
  decks (step pwd_context db op) !! id = Some deck' →
  deck_user_id deck' = deck_user_id deck.
Proof.
  revert id deck deck'. fold (owners_kept db (step pwd_context db op)).
  destruct op; simpl.
  - apply user_create_owners.
  - apply user_update_name_owners.
  - apply user_change_password_owners.
  - apply user_delete_by_id_owners.
  - apply deck_create_owners.
  - apply deck_update_owners.
  - apply deck_delete_by_id_owners.
  - by apply owners_kept_same_decks.
  - apply card_update_owners.
  - apply card_delete_by_id_owners.
  - apply handle_owners.
Qed.
End CredentialProperties.

(** ** The review session *)

Lemma swap_permutation {A} (x : list A) (i j : nat) :
  (i < List.length x)%nat → (j < List.length x)%nat →
  ∃ y, swap x i j = Some y ∧ y ≡ₚ x.
Proof.
  intros Hi Hj. unfold swap.
  destruct (lookup_lt_is_Some_2 x i Hi) as [a Ha].
  destruct (lookup_lt_is_Some_2 x j Hj) as [b Hb].
  rewrite Ha, Hb. simpl. eexists. split; [reflexivity|].
  by apply Permutation_insert_swap.
Qed.

Lemma randbelow_lt (rng : list nat) (n : nat) :
  (0 < n)%nat → ((randbelow rng n).1 < n)%nat.
Proof.
  intros Hn. destruct rng as [|r rng']; simpl; [done|].
  apply Nat.mod_upper_bound. lia.
Qed.

Lemma shuffle_from_permutation {A} (i : nat) :
  ∀ (rng : list nat) (x : list A),
    (i < List.length x ∨ i = 0)%nat →
    ∃ y rng', shuffle_from i rng x = Some (y, rng') ∧ y ≡ₚ x.
Proof.
  induction i as [|i IH]; intros rng x Hi.
  - by exists x, rng.
  - destruct Hi as [Hi|?]; [|lia]. cbn [shuffle_from].
    pose proof (randbelow_lt rng (S i + 1) ltac:(lia)) as Hj.
    destruct (randbelow rng (S i + 1)) as [j rng1]. simpl in Hj.
    destruct (swap_permutation x (S i) j) as (x1 & Hswap & Hperm); [lia..|].
    rewrite Hswap. simpl.
    destruct (IH rng1 x1) as (y & rng2 & Hrun & Hperm2).
    { left. rewrite (Permutation_length Hperm). lia. }
    exists y, rng2. split; [done|]. by etrans.
Qed.

Lemma shuffle_permutation {A} (rng : list nat) (x : list A) :
  ∃ y rng', shuffle rng x = Some (y, rng') ∧ y ≡ₚ x.
Proof.
  apply shuffle_from_permutation. destruct x; simpl; [by right | left; lia].
Qed.

Lemma to_dict_NoDup (db : DB) (deck_id : Z) :
  NoDup (to_dict <$> deck_cards db deck_id).
Proof.
  apply (NoDup_fmap_1 dict_id). rewrite <- list_fmap_compose.
  apply (NoDup_fmap_2_strong).
  - intros [id1 c1] [id2 c2] Hin1 Hin2 Hid. simpl in Hid. subst id2.
    apply list_elem_of_filter in Hin1 as [_ Hin1].
    apply list_elem_of_filter in Hin2 as [_ Hin2].
    apply elem_of_map_to_list in Hin1. apply elem_of_map_to_list in Hin2.
    congruence.
  - apply NoDup_filter, NoDup_map_to_list.
Qed.

(** C7: for a deck of the requesting user, the review page shows a list
    that is a permutation of the deck's cards, each as the record of its
    id, word, translation and tip: every card of the deck is in it with
    exactly these four values, every record in it is such a card, no record
    is in it twice, and the database is the same after the request. *)
Theorem review_deck_permutation (db : DB) (cur : Z) (rng : list nat)
    (deck_id : Z) (deck : Deck) :
  decks db !! deck_id = Some deck →
  deck_user_id deck = Some cur →
  ∃ shown,
    review_deck db cur rng deck_id
      = (db, mkResponse (RenderReview (deck_id, deck) shown) []) ∧
    shown ≡ₚ (λ c : Z * Card,
                mkCardDict c.1 (card_word c.2) (card_translation c.2)
                  (card_tip c.2)) <$> deck_cards db deck_id ∧
    List.length shown = List.length (deck_cards db deck_id) ∧
    NoDup shown ∧
    (∀ id card, cards db !! id = Some card → card_deck_id card = Some deck_id →
                mkCardDict id (card_word card) (card_translation card)
                  (card_tip card) ∈ shown) ∧
    (∀ record, record ∈ shown →
       ∃ card, cards db !! dict_id record = Some card ∧
               card_deck_id card = Some deck_id ∧
               dict_word record = card_word card ∧
               dict_translation record = card_translation card ∧
               dict_tip record = card_tip card).
Proof.
  intros Hdeck Hown. unfold review_deck.
  rewrite (session_get_Some _ _ _ Hdeck), decide_True by done.
  destruct (shuffle_permutation rng (to_dict <$> deck_cards db deck_id))
    as (shown & rng' & Hrun & Hperm).
  rewrite Hrun. exists shown. split; [done|]. split; [done|].
  split; [by rewrite (Permutation_length Hperm), length_fmap|].
  split; [rewrite Hperm; apply to_dict_NoDup|]. split.
  - intros id card Hcard Hin. rewrite Hperm.
    apply (list_elem_of_fmap_2 to_dict _ (id, card)). unfold deck_cards.
    apply list_elem_of_filter. split; [done|]. by apply elem_of_map_to_list.
  - intros record Hin. rewrite Hperm in Hin.
    apply list_elem_of_fmap in Hin as ([id card] & -> & Hin).
    unfold deck_cards in Hin. apply list_elem_of_filter in Hin as [Hfiled Hin].
    apply elem_of_map_to_list in Hin. by exists card.
Qed.

(** ** Ownership checks in the views *)

Section ViewProperties.
Variable pwd_context : CryptContext.

Lemma handle_login_required (db : DB) (req : Request) (cur : Z) (user : User)
    (view : Z → DB * Response) :
  current_user db req = Some (cur, user) →
  login_required db req view = ((view cur).1, session_user_id req, (view cur).2).
Proof. intros Hcur. unfold login_required. by rewrite Hcur. Qed.

(** C1, for ids that SQLite can hold: for a logged-in user, each of the
    seven views that take a deck or a card answers a request for an entity
    of another user exactly as it answers a request for an id in the signed
    64-bit range that is not stored: the same redirect to the index with the
    same message (or, for [add_card_to_deck] without its required fields,
    the same 400), and no change of the database. *)
Theorem foreign_entity_looks_missing (db : DB) (req : Request) (cur : Z)
    (user : User) :
  current_user db req = Some (cur, user) →
  (∀ foreign missing deck,
     decks db !! foreign = Some deck → deck_user_id deck ≠ Some cur →
     decks db !! missing = None → int64 missing →
     (same_outcome pwd_context db req (RShowCardsInDeck foreign) (RShowCardsInDeck missing) ∧
      (handle pwd_context db req (RShowCardsInDeck foreign)).2 = deck_not_found) ∧
     (same_outcome pwd_context db req (RAddCardToDeck foreign) (RAddCardToDeck missing) ∧
      ((handle pwd_context db req (RAddCardToDeck foreign)).2 = deck_not_found ∨
       (handle pwd_context db req (RAddCardToDeck foreign)).2
         = mkResponse BadRequest [])) ∧
     (same_outcome pwd_context db req (RDeleteDeck foreign) (RDeleteDeck missing) ∧
      (handle pwd_context db req (RDeleteDeck foreign)).2 = deck_not_found) ∧
     (same_outcome pwd_context db req (RReviewDeck foreign) (RReviewDeck missing) ∧
      (handle pwd_context db req (RReviewDeck foreign)).2 = deck_not_found)) ∧
  (∀ foreign missing card,
     cards db !! foreign = Some card → card_user_id card ≠ Some cur →
     cards db !! missing = None → int64 missing →
     (same_outcome pwd_context db req (REditCard foreign) (REditCard missing) ∧
      (handle pwd_context db req (REditCard foreign)).2 = card_not_found) ∧
     (same_outcome pwd_context db req (RUpdateCard foreign) (RUpdateCard missing) ∧
      (handle pwd_context db req (RUpdateCard foreign)).2 = card_not_found) ∧
     (same_outcome pwd_context db req (RDeleteCard foreign) (RDeleteCard missing) ∧
      (handle pwd_context db req (RDeleteCard foreign)).2 = card_not_found)).
Proof.
  intros Hcur. split.
  - intros foreign missing deck Hdeck Hother Hmissing Hrange.
    apply session_get_Some in Hdeck.
    apply session_get_None in Hmissing; [|done].
    unfold same_outcome. simpl.
    rewrite !(handle_login_required _ _ _ _ _ Hcur).
    unfold show_cards_in_deck, add_card_to_deck, delete_deck, review_deck.
    destruct (form_get (form req) "word"),
      (form_get (form req) "translation");
      rewrite ?Hdeck, ?Hmissing, ?decide_False by done;
      simpl; repeat split; auto.
  - intros foreign missing card Hcard Hother Hmissing Hrange.
    apply session_get_Some in Hcard.
    apply session_get_None in Hmissing; [|done].
    unfold same_outcome. simpl.
    rewrite !(handle_login_required _ _ _ _ _ Hcur).
    unfold edit_card, update_card, delete_card. cbv zeta.
    rewrite !Hcard, !Hmissing, !decide_False by done.
    repeat split; done.
Qed.
End ViewProperties.

(** ** Adding a card *)

(** C5, as the code has it: for the owner of the deck, a request whose
    [word] or [translation] is submitted empty is answered with the
    form-error message and a redirect to the deck, and a request that lacks
    one of the two fields altogether is answered with 400 before the deck is
    looked at; in both cases the database, so the card table, is unchanged. *)
Theorem add_card_requires_word_and_translation (db : DB) (cur : Z) (form : Form)
    (deck_id : Z) (deck : Deck) :
  decks db !! deck_id = Some deck →
  deck_user_id deck = Some cur →
  (form_get form "word" = None ∨ form_get form "translation" = None →
     add_card_to_deck db cur form deck_id = (db, mkResponse BadRequest [])) ∧
  (∀ word translation,
     form_get form "word" = Some word →
     form_get form "translation" = Some translation →
     word = EmptyString ∨ translation = EmptyString →
     add_card_to_deck db cur form deck_id
       = (db, mkResponse (Redirect (EpShowCardsInDeck deck_id))
                [(msg_card_required, "danger")])).
Proof.
  intros Hdeck Hown. unfold add_card_to_deck. split.
  - intros [-> | Hnone]; [done|]. rewrite Hnone.
    by destruct (form_get form "word").
  - intros word translation -> -> Hempty. rewrite (session_get_Some _ _ _ Hdeck), decide_True by done.
    destruct Hempty as [-> | ->]; [done|]. by rewrite andb_false_r.
Qed.

(** ** Updating a card through the form *)

(** C10: [update_card] hands the three fields to [card_update] as
    [request.form.get] returns them, so for a card of the requesting user a
    field that is present takes the submitted value, the empty string
    included, and only an absent field keeps the stored value. *)
Theorem update_card_stores_empty_fields (db : DB) (cur : Z) (form : Form)
    (card_id : Z) (card : Card) :
  cards db !! card_id = Some card →
  card_user_id card = Some cur →
  (update_card db cur form card_id).1
    = (card_update db card_id (form_get form "word")
         (form_get form "translation") (form_get form "tip")).2 ∧
  ∃ card',
    cards (update_card db cur form card_id).1 !! card_id = Some card' ∧
    (∀ v, form_get form "word" = Some v → card_word card' = v) ∧
    (∀ v, form_get form "translation" = Some v → card_translation card' = v) ∧
    (∀ v, form_get form "tip" = Some v → card_tip card' = Some v) ∧
    (form_get form "word" = Some EmptyString → card_word card' = EmptyString) ∧
    (form_get form "translation" = Some EmptyString → card_translation card' = EmptyString) ∧
    (form_get form "tip" = Some EmptyString → card_tip card' = Some EmptyString) ∧
    (form_get form "word" = None → card_word card' = card_word card) ∧
    (form_get form "translation" = None →
       card_translation card' = card_translation card) ∧
    (form_get form "tip" = None → card_tip card' = card_tip card).
Proof.
  intros Hcard Hown. unfold update_card.
  rewrite (session_get_Some _ _ _ Hcard), decide_True by done.
  split; [done|]. unfold card_update. rewrite Hcard. simpl.
  eexists. split; [by rewrite lookup_insert_eq|]. simpl.
  repeat split; intros; by simplify_option_eq.
Qed.

(** ** Filtering cards *)

Lemma append_nil_l (s : string) : EmptyString +:+ s = s.
Proof. reflexivity. Qed.

Lemma append_cons (c : ascii) (s t : string) :
  String c s +:+ t = String c (s +:+ t).
Proof. reflexivity. Qed.

Tactic Notation "string_app" "in" hyp(H) :=
  rewrite ?append_cons, ?append_nil_l in H.
Tactic Notation "string_app" := rewrite ?append_cons, ?append_nil_l.

Lemma any_run_end (k : string → bool) (inside : bool) (t : string) :
  k EmptyString = true → any_run k inside t = true.
Proof.
  intros Hk. revert inside. induction t as [|c t IH]; intros inside; [done|].
  cbn [any_run]. destruct (inside && is_continuation c); [done|].
  by rewrite IH, orb_true_r.
Qed.




Lemma lower_ascii_classes (c : ascii) :
  Ascii.eqb (lower_ascii c) "%" = Ascii.eqb c "%" ∧
  Ascii.eqb (lower_ascii c) "_" = Ascii.eqb c "_" ∧
  Ascii.eqb (lower_ascii c) zero = Ascii.eqb c zero ∧
  is_continuation (lower_ascii c) = is_continuation c.
Proof. by destruct c as [[] [] [] [] [] [] [] []]. Qed.



Lemma lower_starts (s : string) :
  starts_with_continuation (lower s) = starts_with_continuation s.
Proof. destruct s as [|c s]; [done|]. simpl. apply lower_ascii_classes. Qed.

Lemma lower_append (a b : string) : lower (a +:+ b) = lower a +:+ lower b.
Proof. induction a as [|c a IH]; string_app; simpl; [done | by rewrite IH]. Qed.

Lemma lower_length (s : string) : String.length (lower s) = String.length s.
Proof. induction s as [|c s IH]; simpl; [done | by rewrite IH]. Qed.




Lemma lower_search_term (s : string) :
  lower ("%" +:+ s +:+ "%") = String "%" (lower s +:+ "%").
Proof. string_app. cbn [lower]. by rewrite lower_append. Qed.




(** * The properties on the demo database *)

Lemma demo_hash_not_plain : ∀ s p, hash demo_context s p ≠ p.
Proof.
  intros s p. simpl. string_app. clear s.
  induction p as [|c p IH]; [done|].
  intros Heq. injection Heq as <- Heq. by apply IH.
Qed.

Lemma card_update_frame_witness :
  cards demo_db !! 1 = Some card_hello ∧
  ∃ card',
    (card_update demo_db 1 (Some "hi") None None).1 = Some (1, card') ∧
    card_word card' = "hi" ∧
    card_translation card' = card_translation card_hello ∧
    card_tip card' = card_tip card_hello.
Proof.
  assert (H : cards demo_db !! 1 = Some card_hello) by (vm_compute; reflexivity).
  split; [exact H|].
  destruct (card_update_frame demo_db 1 card_hello (Some "hi") None None H)
    as (card' & Hret & _ & Hw & _ & _ & Ht & _ & Htip & _).
  exists card'. split; [exact Hret|].
  split; [by apply Hw|]. split; [by apply Ht | by apply Htip].
Defined.

Lemma cascade_delete_witness :
  card_get_by_id (deck_delete_by_id demo_db 1).2 2 = None ∧
  card_get_by_id (user_delete_by_id demo_db 1).2 1 = None ∧
  card_get_by_id
    (user_delete_by_id
       {| users := <[1 := alice]> ∅; decks := ∅;
          cards := <[1 := mkCard (Some 1) "sun" "сонце" None None]> ∅ |} 1).2 1
    = None.
Proof.
  destruct (cascade_delete demo_db) as [Hdeck Huser].
  destruct (Hdeck 1 alice_deck) as (_ & Hcards & _); [vm_compute; reflexivity|].
  destruct (Huser 1 alice) as (_ & _ & Hucards & _); [vm_compute; reflexivity|].
  destruct (cascade_delete
              {| users := <[1 := alice]> ∅; decks := ∅;
                 cards := <[1 := mkCard (Some 1) "sun" "сонце" None None]> ∅ |})
    as [_ Hlone].
  destruct (Hlone 1 alice) as (_ & _ & Hunfiled & _); [vm_compute; reflexivity|].
  split; [|split].
  - apply (Hcards 2 card_world); vm_compute; reflexivity.
  - apply (Hucards 1 card_hello); vm_compute; reflexivity.
  - apply (Hunfiled 1 (mkCard (Some 1) "sun" "сонце" None None));
      vm_compute; reflexivity.
Defined.

Lemma user_create_spec_witness :
  user_create demo_context demo_db "salt" (Some "Eve") "alice@example.com" "pw"
    = (None, demo_db) ∧
  ∃ id u,
    (user_create demo_context demo_db "salt" (Some "Carol")
       "carol@example.com" "pw").1 = Some (id, u) ∧
    user_password u = "$pw" ∧ user_password u ≠ "pw".
Proof.
  split.
  - apply (user_create_spec demo_context demo_db "salt" (Some "Eve")
             "alice@example.com" "pw").
    exists 1, alice. split; vm_compute; reflexivity.
  - destruct (user_create_spec demo_context demo_db "salt" (Some "Carol")
                "carol@example.com" "pw") as [_ Hnew].
    destruct Hnew as (id & u & Hret & _ & _ & _ & _ & _ & Hpw & Hne).
    { apply user_get_by_email_None. vm_compute. reflexivity. }
    exists id, u. split; [exact Hret|].
    split; [exact Hpw | exact (Hne demo_hash_not_plain)].
Defined.

Lemma delete_by_id_reports_existence_witness :
  int64 2 ∧ int64 7 ∧ int64 3 ∧
  (user_delete_by_id demo_db 2).1 = Returned true ∧
  (deck_delete_by_id demo_db 7).1 = Returned false ∧
  (deck_delete_by_id demo_db 7).2 = demo_db ∧
  cards (card_delete_by_id demo_db 3).2 !! 3 = None.
Proof.
  assert (H2 : int64 2) by (unfold int64; lia).
  assert (H7 : int64 7) by (unfold int64; lia).
  assert (H3 : int64 3) by (unfold int64; lia).
  split; [exact H2|]. split; [exact H7|]. split; [exact H3|].
  destruct (delete_by_id_reports_existence demo_db 2 H2) as ((Hu & _) & _).
  destruct (delete_by_id_reports_existence demo_db 7 H7)
    as (_ & (_ & Hd & _ & Hd') & _).
  destruct (delete_by_id_reports_existence demo_db 3 H3) as (_ & _ & (_ & _ & Hc & _)).
  assert (Hfalse : (deck_delete_by_id demo_db 7).1 = Returned false)
    by (apply Hd; vm_compute; reflexivity).
  split; [apply Hu; exists bob; vm_compute; reflexivity|].
  split; [exact Hfalse|]. split; [exact (Hd' Hfalse) | exact Hc].
Defined.

(** C8 as stated fails: for the id 2^63, which no row has, the delete
    accessors do not return [False]; [session.get] raises. *)
Lemma delete_by_id_overflow_counterexample :
  cards demo_db !! (2 ^ 63) = None ∧
  decks demo_db !! (2 ^ 63) = None ∧
  users demo_db !! (2 ^ 63) = None ∧
  card_delete_by_id demo_db (2 ^ 63) = (Raised OverflowError, demo_db) ∧
  deck_delete_by_id demo_db (2 ^ 63) = (Raised OverflowError, demo_db) ∧
  user_delete_by_id demo_db (2 ^ 63) = (Raised OverflowError, demo_db) ∧
  (card_delete_by_id demo_db (2 ^ 63)).1 ≠ Returned false.
Proof.
  assert (Hc : cards demo_db !! (2 ^ 63) = None) by (vm_compute; reflexivity).
  assert (Hd : decks demo_db !! (2 ^ 63) = None) by (vm_compute; reflexivity).
  assert (Hu : users demo_db !! (2 ^ 63) = None) by (vm_compute; reflexivity).
  assert (Hout : ¬ int64 (2 ^ 63)) by (unfold int64; lia).
  unfold card_delete_by_id, deck_delete_by_id, user_delete_by_id.
  rewrite (session_get_out_of_range _ _ Hc Hout),
    (session_get_out_of_range _ _ Hd Hout),
    (session_get_out_of_range _ _ Hu Hout).
  repeat split; done.
Qed.

Lemma deck_owner_never_changes_witness :
  decks demo_db !! 1 = Some alice_deck ∧
  decks (step demo_context demo_db (OpDeckUpdate 1 "Renamed")) !! 1
    = Some (mkDeck "Renamed" (Some 1)) ∧
  deck_user_id (mkDeck "Renamed" (Some 1)) = deck_user_id alice_deck.
Proof.
  assert (H1 : decks demo_db !! 1 = Some alice_deck) by (vm_compute; reflexivity).
  assert (H2 : decks (step demo_context demo_db (OpDeckUpdate 1 "Renamed")) !! 1
               = Some (mkDeck "Renamed" (Some 1))) by (vm_compute; reflexivity).
  split; [exact H1|]. split; [exact H2|].
  exact (deck_owner_never_changes demo_context demo_db (OpDeckUpdate 1 "Renamed")
           1 alice_deck (mkDeck "Renamed" (Some 1)) H1 H2).
Defined.

Lemma review_deck_permutation_witness :
  decks demo_db !! 1 = Some alice_deck ∧
  deck_user_id alice_deck = Some 1 ∧
  ∃ shown,
    review_deck demo_db 1 [5; 1; 0]%nat 1
      = (demo_db, mkResponse (RenderReview (1, alice_deck) shown) []) ∧
    List.length shown = 2%nat ∧
    mkCardDict 2 "world" "світ" (Some "Наша планета") ∈ shown ∧
    mkCardDict 1 "hello" "привіт" (Some "Привітання") ∈ shown.
Proof.
  assert (H : decks demo_db !! 1 = Some alice_deck) by (vm_compute; reflexivity).
  split; [exact H|]. split; [reflexivity|].
  destruct (review_deck_permutation demo_db 1 [5; 1; 0]%nat 1 alice_deck H eq_refl)
    as (shown & Hrun & _ & Hlen & _ & Hall & _).
  exists shown. split; [exact Hrun|]. split; [rewrite Hlen; vm_compute; reflexivity|].
  split.
  - apply (Hall 2 card_world); vm_compute; reflexivity.
  - apply (Hall 1 card_hello); vm_compute; reflexivity.
Defined.

Lemma foreign_entity_looks_missing_witness :
  current_user demo_db (alice_request []) = Some (1, alice) ∧
  int64 7 ∧ int64 9 ∧
  same_outcome demo_context demo_db (alice_request [])
    (RDeleteDeck 2) (RDeleteDeck 7) ∧
  (handle demo_context demo_db (alice_request []) (RShowCardsInDeck 2)).2
    = deck_not_found ∧
  same_outcome demo_context demo_db (alice_request [])
    (RUpdateCard 3) (RUpdateCard 9).
Proof.
  assert (H : current_user demo_db (alice_request []) = Some (1, alice))
    by (vm_compute; reflexivity).
  assert (H7 : int64 7) by (unfold int64; lia).
  assert (H9 : int64 9) by (unfold int64; lia).
  split; [exact H|]. split; [exact H7|]. split; [exact H9|].
  destruct (foreign_entity_looks_missing demo_context demo_db (alice_request [])
              1 alice H) as [Hdecks Hcards].
  destruct (Hdecks 2 7 bob_deck) as ((_ & Hshow) & _ & (Hdel & _) & _);
    [vm_compute; reflexivity | vm_compute; congruence | vm_compute; reflexivity
    | exact H7 |].
  destruct (Hcards 3 9 card_bob) as (_ & (Hupd & _) & _);
    [vm_compute; reflexivity | vm_compute; congruence | vm_compute; reflexivity
    | exact H9 |].
  split; [exact Hdel|]. split; [exact Hshow | exact Hupd].
Defined.

(** C1 as stated fails: the id 2^63 names no deck, and the request for it
    ends in a 500, not in the redirect that a deck of another user gets. *)
Lemma missing_id_overflow_counterexample :
  current_user demo_db (alice_request []) = Some (1, alice) ∧
  decks demo_db !! 2 = Some bob_deck ∧ deck_user_id bob_deck ≠ Some 1 ∧
  decks demo_db !! (2 ^ 63) = None ∧
  (handle demo_context demo_db (alice_request []) (RShowCardsInDeck 2)).2
    = deck_not_found ∧
  (handle demo_context demo_db (alice_request []) (RShowCardsInDeck (2 ^ 63))).2
    = mkResponse InternalServerError [] ∧
  handle demo_context demo_db (alice_request []) (RShowCardsInDeck 2)
    ≠ handle demo_context demo_db (alice_request []) (RShowCardsInDeck (2 ^ 63)).
Proof.
  assert (Hd : decks demo_db !! (2 ^ 63) = None) by (vm_compute; reflexivity).
  assert (Hout : ¬ int64 (2 ^ 63)) by (unfold int64; lia).
  assert (Hbob : decks demo_db !! 2 = Some bob_deck) by (vm_compute; reflexivity).
  assert (Hcur : current_user demo_db (alice_request []) = Some (1, alice))
    by (vm_compute; reflexivity).
  split; [exact Hcur|]. split; [exact Hbob|].
  split; [vm_compute; congruence|]. split; [exact Hd|].
  cbn [handle]. rewrite !(handle_login_required _ _ _ _ _ Hcur).
  unfold show_cards_in_deck.
  rewrite (session_get_Some _ _ _ Hbob), (session_get_out_of_range _ _ Hd Hout).
  rewrite decide_False by (vm_compute; congruence).
  repeat split; done.
Qed.

Lemma add_card_requires_word_and_translation_witness :
  decks demo_db !! 1 = Some alice_deck ∧
  deck_user_id alice_deck = Some 1 ∧
  add_card_to_deck demo_db 1 [("word", EmptyString); ("translation", "кит")] 1
    = (demo_db, mkResponse (Redirect (EpShowCardsInDeck 1))
                  [(msg_card_required, "danger")]) ∧
  add_card_to_deck demo_db 1 [("word", "whale")] 1
    = (demo_db, mkResponse BadRequest []).
Proof.
  assert (H : decks demo_db !! 1 = Some alice_deck) by (vm_compute; reflexivity).
  split; [exact H|]. split; [reflexivity|]. split.
  - apply (add_card_requires_word_and_translation demo_db 1
             [("word", EmptyString); ("translation", "кит")] 1 alice_deck H eq_refl)
      with (word := EmptyString) (translation := "кит"); [reflexivity..|by left].
  - apply (add_card_requires_word_and_translation demo_db 1
             [("word", "whale")] 1 alice_deck H eq_refl).
    right. reflexivity.
Defined.

(** C5 as stated fails: the owner's request without the [word] field gets a
    400 with no message and no redirect. *)
Lemma add_card_absent_word_counterexample :
  decks demo_db !! 1 = Some alice_deck ∧
  deck_user_id alice_deck = Some 1 ∧
  form_get [("translation", "кит")] "word" = None ∧
  (add_card_to_deck demo_db 1 [("translation", "кит")] 1).2
    = mkResponse BadRequest [] ∧
  ¬ ∃ target message,
      (add_card_to_deck demo_db 1 [("translation", "кит")] 1).2
        = mkResponse (Redirect target) [message].
Proof.
  split; [vm_compute; reflexivity|]. split; [reflexivity|].
  split; [reflexivity|]. split; [reflexivity|].
  intros (target & message & Heq). discriminate Heq.
Qed.

Lemma update_card_stores_empty_fields_witness :
  cards demo_db !! 1 = Some card_hello ∧
  card_user_id card_hello = Some 1 ∧
  ∃ card',
    cards (update_card demo_db 1 [("word", EmptyString); ("tip", EmptyString)] 1).1 !! 1
      = Some card' ∧
    card_word card' = EmptyString ∧
    card_tip card' = Some EmptyString ∧
    card_translation card' = card_translation card_hello.
Proof.
  assert (H : cards demo_db !! 1 = Some card_hello) by (vm_compute; reflexivity).
  split; [exact H|]. split; [reflexivity|].
  destruct (update_card_stores_empty_fields demo_db 1 [("word", EmptyString); ("tip", EmptyString)]
              1 card_hello H eq_refl)
    as (_ & card' & Hget & _ & _ & _ & Hw & _ & Htip & _ & Htr & _).
  exists card'. split; [exact Hget|].
  split; [by apply Hw|]. split; [by apply Htip | by apply Htr].
Defined.



(** ** The program run on small inputs *)

Example like_examples :
  like "%orl%" "world" = true ∧ like "%orl%" "hello" = false ∧
  like "h_llo" "hello" = true ∧ ilike "Hello" "%ELL%" = true ∧
  like "к_т" "кіт" = true ∧ like "к__т" "кіт" = false ∧
  like "%__a" "日a" = false.
Proof. repeat split; reflexivity. Qed.

Example card_filter_orl : card_filter demo_db "orl" = Returned [(2, card_world)].
Proof. vm_compute. reflexivity. Qed.

Example shuffle_example :
  shuffle [5; 1; 0]%nat [10; 20; 30; 40] = Some ([30; 10; 40; 20], []).
Proof. vm_compute. reflexivity. Qed.

Example deck_delete_example :
  (deck_delete_by_id demo_db 1).1 = Returned true ∧
  cards (deck_delete_by_id demo_db 1).2 = <[3 := card_bob]> ∅ ∧
  deck_delete_by_id demo_db 7 = (Returned false, demo_db).
Proof. repeat split; vm_compute; reflexivity. Qed.

Example card_create_example :
  (card_create demo_db (Some 1) "sun" "сонце" None (Some 1)).1.1 = 4.
Proof. vm_compute. reflexivity. Qed.

(** The sequence of calls of [test_crud.py], from the empty database. *)
Example test_crud_run :
  let '(user, db1) :=
    user_create demo_context empty_db "salt" (Some "TestUser")
      "test@example.com" "testpassword" in
  let user_id := fst <$> user in
  let '(deck, db2) := deck_create db1 "Test Deck" user_id in
  let '(card, db3) := card_create db2 user_id "word" "translation" (Some "tip")
                        (Some deck.1) in
  let '(updated_card, db4) := card_update db3 card.1 (Some "updated_word") None None in
  let '(delete_success, db5) := card_delete_by_id db4 card.1 in
  let '(delete_deck_success, db6) := deck_delete_by_id db5 deck.1 in
  user_name <$> (snd <$> user) = Some (Some "TestUser") ∧
  deck_name deck.2 = "Test Deck" ∧ deck_user_id deck.2 = user_id ∧
  card_word card.2 = "word" ∧ card_deck_id card.2 = Some deck.1 ∧
  card_word <$> (snd <$> updated_card) = Some "updated_word" ∧
  delete_success = Returned true ∧ card_get_by_id db5 card.1 = None ∧
  delete_deck_success = Returned true ∧ deck_get_by_id db6 deck.1 = None ∧
  card_get_by_id db6 card.1 = None.
Proof. vm_compute. repeat split; reflexivity. Qed.

(** * Further properties of the accessors *)

(** ** Users *)

Lemma user_get_by_email_found (db : DB) (email : string) (id : Z) (u : User) :
  users db !! id = Some u → user_email u = email →
  (∀ j v, users db !! j = Some v → user_email v = email → j = id) →
  user_get_by_email db email = Some (id, u).
Proof.
  intros Hu Hmail Honly.
  destruct (user_get_by_email db email) as [[j v]|] eqn:Hget.
  - apply user_get_by_email_Some in Hget as [Hv Hvmail]. simpl in *.
    assert (j = id) as -> by eauto. congruence.
  - rewrite user_get_by_email_None in Hget. by destruct (Hget id u Hu).
Qed.

Lemma user_create_get_by_email (pwd_context : CryptContext) (db db' : DB)
    (salt : string) (name : option string) (email password : string)
    (id : Z) (u : User) :
  user_create pwd_context db salt name email password = (Some (id, u), db') →
  user_get_by_email db' email = Some (id, u).
Proof.
  unfold user_create.
  destruct (user_get_by_email db email) as [r|] eqn:Hget; [done|].
  intros [= <- <- <-]. rewrite user_get_by_email_None in Hget.
  apply user_get_by_email_found; simpl; [by rewrite lookup_insert_eq | done |].
  intros j v Hv Hmail. destruct (decide (next_id (users db) = j)) as [|Hne]; [done|].
  rewrite lookup_insert_ne in Hv by done. by destruct (Hget j v Hv).
Qed.

(** X1: A user that [user_create] returned is found again by email and by id,
    and the call kept every other row of the database. *)
Theorem user_create_then_get (pwd_context : CryptContext) (db db' : DB)
    (salt : string) (name : option string) (email password : string)
    (id : Z) (u : User) :
  user_create pwd_context db salt name email password = (Some (id, u), db') →
  user_get_by_email db' email = Some (id, u) ∧
  user_get_by_id db' id = Some (id, u) ∧
  (∀ j v, users db !! j = Some v → users db' !! j = Some v) ∧
  decks db' = decks db ∧ cards db' = cards db.
Proof.
  intros Hcreate. split; [by eapply user_create_get_by_email|].
  revert Hcreate. unfold user_create.
  destruct (user_get_by_email db email) as [r|] eqn:Hget; [done|].
  intros [= <- <- <-].
  pose proof (next_id_fresh (users db)) as Hfresh.
  split; [|split; [|done]].
  - unfold user_get_by_id. simpl. by rewrite lookup_insert_eq.
  - intros j v Hv. simpl. rewrite lookup_insert_ne; [done|].
    intros <-. congruence.
Qed.

(** X2: [user_change_password] succeeds exactly when the user is stored and the
    old password verifies against the stored hash.  A success replaces the
    password by the hash of the new one and keeps name, email and all other
    rows; a failure changes nothing. *)
Theorem user_change_password_spec (pwd_context : CryptContext) (db : DB)
    (salt : string) (user_id : Z) (old_password new_password : string) :
  ((user_change_password pwd_context db salt user_id old_password new_password).1
     = true ↔
   ∃ user, users db !! user_id = Some user ∧
           verify pwd_context old_password (user_password user) = true) ∧
  ((user_change_password pwd_context db salt user_id old_password new_password).1
     = false →
   (user_change_password pwd_context db salt user_id old_password new_password).2
     = db) ∧
  (∀ user,
     users db !! user_id = Some user →
     verify pwd_context old_password (user_password user) = true →
     ∃ user',
       users (user_change_password pwd_context db salt user_id
                old_password new_password).2 !! user_id = Some user' ∧
       user_password user' = hash pwd_context salt new_password ∧
       user_name user' = user_name user ∧
       user_email user' = user_email user ∧
       (∀ j, j ≠ user_id →
          users (user_change_password pwd_context db salt user_id
                   old_password new_password).2 !! j = users db !! j) ∧
       decks (user_change_password pwd_context db salt user_id
                old_password new_password).2 = decks db ∧
       cards (user_change_password pwd_context db salt user_id
                old_password new_password).2 = cards db).
Proof.
  unfold user_change_password, verify_password.
  destruct (users db !! user_id) as [user|] eqn:Huser.
  - destruct (verify pwd_context old_password (user_password user)) eqn:Hv; simpl.
    + split; [split; [by eauto | done]|]. split; [done|].
      intros ? [= <-] _. eexists. split; [by rewrite lookup_insert_eq|].
      repeat split. intros j Hne. by rewrite lookup_insert_ne.
    + split; [split; [done | intros (? & [= <-] & ?); congruence]|].
      split; [done|]. intros ? [= <-] ?. congruence.
  - simpl. split; [split; [done | by intros (? & ? & ?)]|]. split; done.
Qed.

(** ** What a request does to the database *)

Lemma login_required_effect (pwd_context : CryptContext) (db : DB) (req : Request)
    (view : Z → DB * Response) :
  (∀ cur user, current_user db req = Some (cur, user) →
               request_effect pwd_context db req (view cur).1) →
  request_effect pwd_context db req (login_required db req view).1.1.
Proof.
  intros Hview. unfold login_required.
  destruct (current_user db req) as [[cur user]|] eqn:Hcur; simpl;
    [by eapply Hview | constructor].
Qed.

Lemma handle_effect (pwd_context : CryptContext) (db : DB) (req : Request)
    (route : Route) :
  request_effect pwd_context db req (handle pwd_context db req route).1.1.
Proof.
  destruct route; simpl;
    try (apply login_required_effect; intros cur user Hcur).
  - constructor.
  - unfold register. destruct method; [constructor|].
    destruct (form_get (form req) "email") as [email|]; simpl; [|constructor].
    destruct (user_get_by_email db email) eqn:Hget; [constructor|].
    destruct (form_get (form req) "password") as [password|]; [|constructor].
    pose proof (effect_register pwd_context db req
                  (form_get (form req) "name") email password Hget) as Heff.
    by destruct (user_create _ _ _ _ _ _) as [[user|] db'].
  - unfold login. destruct (current_user db req); [constructor|].
    destruct method; [constructor|].
    destruct (form_get (form req) "email" ≫= _); [|constructor].
    destruct (form_get (form req) "password"); [|constructor].
    destruct (verify_password _ _ _); constructor.
  - unfold logout. destruct (current_user db req); constructor.
  - unfold show_cards_in_deck.
    destruct (session_get (decks db) deck_id); [case_decide|..]; constructor.
  - unfold add_card_to_deck.
    destruct (form_get (form req) "word") as [word|]; [|constructor].
    destruct (form_get (form req) "translation") as [translation|]; [|constructor].
    destruct (session_get (decks db) deck_id) as [deck| |] eqn:Hdeck;
      [apply session_get_Found in Hdeck|constructor..].
    case_decide; [|constructor].
    destruct (truthy word) eqn:Hw, (truthy translation) eqn:Ht; simpl;
      try constructor.
    by eapply effect_add_card.
  - unfold edit_card. destruct (session_get (cards db) card_id);
      [case_decide|..]; constructor.
  - unfold update_card.
    destruct (session_get (cards db) card_id) as [card| |] eqn:Hcard;
      [apply session_get_Found in Hcard|constructor..].
    case_decide; [|constructor]. simpl. by eapply effect_update_card.
  - unfold delete_card.
    destruct (session_get (cards db) card_id) as [card| |] eqn:Hcard;
      [apply session_get_Found in Hcard|constructor..].
    case_decide; [|constructor]. simpl. by eapply effect_delete_card.
  - unfold add_deck. destruct (form_get (form req) "deck_name") as [[|c name]|];
      try constructor.
    simpl. by eapply effect_add_deck.
  - unfold delete_deck.
    destruct (session_get (decks db) deck_id) as [deck| |] eqn:Hdeck;
      [apply session_get_Found in Hdeck|constructor..].
    case_decide; [|constructor]. simpl. by eapply effect_delete_deck.
  - unfold review_deck. destruct (session_get (decks db) deck_id);
      [|constructor..].
    case_decide; [|constructor].
    destruct (shuffle _ _) as [[shown rng']|]; constructor.
Qed.

Lemma current_user_session (db : DB) (req : Request) (cur : Z) (user : User) :
  current_user db req = Some (cur, user) →
  session_user_id req = Some cur ∧ users db !! cur = Some user.
Proof.
  unfold current_user, load_user.
  destruct (session_user_id req) as [sid|]; simpl; [|done].
  destruct (users db !! sid) as [u|] eqn:Hu; simpl; [|done].
  by intros [= <- <-].
Qed.

(** X14: A request that comes without a logged-in user is turned away by
    [login_required] on every route except [register] and [login]: the
    view does not run, so the database and the session stay as they are,
    and the answer is Flask-Login's, with its flashed login message,
    whatever the route, its id and the form are. *)
Theorem anonymous_request_is_turned_away (pwd_context : CryptContext) (db : DB)
    (req : Request) (route : Route) :
  current_user db req = None →
  (∀ method, route ≠ RRegister method) →
  (∀ method, route ≠ RLogin method) →
  handle pwd_context db req route
    = (db, session_user_id req,
       mkResponse Unauthorized [(msg_login_required, "message")]).
Proof.
  intros Hanon Hreg Hlog.
  destruct route; simpl; unfold login_required, logout; rewrite ?Hanon; try done.
  - by destruct (Hreg method).
  - by destruct (Hlog method).
Qed.

(** X15: The routes that only show something leave the database as it is:
    the index, a deck's cards, the edit form, the review page, the two
    forms of [register] and [login] on GET, [login] on POST and [logout]. *)
Theorem showing_routes_change_nothing (pwd_context : CryptContext) (db : DB)
    (req : Request) (deck_id card_id : Z) (method : Method) :
  (handle pwd_context db req RIndex).1.1 = db ∧
  (handle pwd_context db req (RShowCardsInDeck deck_id)).1.1 = db ∧
  (handle pwd_context db req (REditCard card_id)).1.1 = db ∧
  (handle pwd_context db req (RReviewDeck deck_id)).1.1 = db ∧
  (handle pwd_context db req (RRegister GET)).1.1 = db ∧
  (handle pwd_context db req (RLogin method)).1.1 = db ∧
  (handle pwd_context db req RLogout).1.1 = db.
Proof.
  simpl. unfold login_required, logout, login.
  destruct (current_user db req) as [[cur user]|]; simpl; repeat split.
  - unfold show_cards_in_deck.
    destruct (session_get (decks db) deck_id); [case_decide|..]; done.
  - unfold edit_card.
    destruct (session_get (cards db) card_id); [case_decide|..]; done.
  - unfold review_deck. destruct (session_get (decks db) deck_id); [|done..].
    case_decide; [|done]. by destruct (shuffle _ _) as [[? ?]|].
  - destruct method; [done|].
    destruct (form_get (form req) "email" ≫= _); [|done].
    destruct (form_get (form req) "password"); [|done].
    by destruct (verify_password _ _ _).
Qed.

Lemma handle_users_kept (pwd_context : CryptContext) (db : DB)
    (req : Request) (route : Route) (id : Z) (user : User) :
  users db !! id = Some user →
  users (handle pwd_context db req route).1.1 !! id = Some user.
Proof.
  intros Huser.
  destruct (handle_effect pwd_context db req route) as
    [ | name email password Hget | | ? ? card_id | ? ? card_id | | ? ? deck_id ];
    try done.
  - unfold user_create. rewrite Hget. simpl.
    rewrite lookup_insert_ne; [done|].
    intros <-. by rewrite next_id_fresh in Huser.
  - unfold card_update. by destruct (cards db !! card_id).
  - rewrite card_delete_by_id_db. by destruct (cards db !! card_id).
  - rewrite deck_delete_by_id_db. by destruct (decks db !! deck_id).
Qed.

(** X16: No request removes or alters a stored user: after any request every
    user row is as it was ([register] only adds one). *)
Theorem requests_keep_users (pwd_context : CryptContext) (db : DB)
    (req : Request) (route : Route) (id : Z) (user : User) :
  users db !! id = Some user →
  users (handle pwd_context db req route).1.1 !! id = Some user.
Proof. apply handle_users_kept. Qed.

(** X17: Requests keep the cards well filed: when every filed card names a
    stored deck of the card's owner, the same holds after any request. *)
Theorem requests_keep_well_filed (pwd_context : CryptContext) (db : DB)
    (req : Request) (route : Route) :
  well_filed db → well_filed (handle pwd_context db req route).1.1.
Proof.
  intros Hwf.
  destruct (handle_effect pwd_context db req route) as
    [ | name email password Hget
      | cur user deck_id deck word translation tip Hcur Hdeck Hown Hw Ht
      | cur user card_id card word translation tip Hcur Hcard Hown
      | cur user card_id card Hcur Hcard Hown
      | cur user name Hcur Hname
      | cur user deck_id deck Hcur Hdeck Hown ]; [done|..].
  - unfold user_create. rewrite Hget. exact Hwf.
  - intros id c did Hc Hdid. simpl in *.
    apply lookup_insert_Some in Hc as [[<- <-]|[Hne Hc]]; simpl in *.
    + injection Hdid as <-. exists deck. by rewrite Hown.
    + by eapply Hwf.
  - unfold card_update. rewrite Hcard.
    intros id c did Hc Hdid. simpl in *.
    apply lookup_insert_Some in Hc as [[<- <-]|[Hne Hc]]; simpl in *;
      by eapply Hwf.
  - rewrite card_delete_by_id_db. rewrite Hcard.
    intros id c did Hc Hdid. simpl in *.
    apply lookup_delete_Some in Hc as [_ Hc]. by eapply Hwf.
  - intros id c did Hc Hdid. simpl in *.
    destruct (Hwf id c did Hc Hdid) as (d & Hd & Hsame).
    exists d. split; [|done]. rewrite lookup_insert_ne; [done|].
    intros <-. by rewrite next_id_fresh in Hd.
  - rewrite deck_delete_by_id_db. rewrite Hdeck.
    intros id c did Hc Hdid. simpl in *.
    apply map_lookup_filter_Some in Hc as [Hc Hne]. simpl in Hne.
    destruct (Hwf id c did Hc Hdid) as (d & Hd & Hsame).
    exists d. split; [|done]. rewrite lookup_delete_ne; [done|]. congruence.
Qed.

(** X18: A request touches only what belongs to the user of its session: every
    deck of someone else is as it was after the request, and, when the
    cards are well filed, so is every card of someone else. *)
Theorem requests_leave_others_alone (pwd_context : CryptContext) (db : DB)
    (req : Request) (route : Route) :
  well_filed db →
  (∀ id deck,
     decks db !! id = Some deck → deck_user_id deck ≠ session_user_id req →
     decks (handle pwd_context db req route).1.1 !! id = Some deck) ∧
  (∀ id card,
     cards db !! id = Some card → card_user_id card ≠ session_user_id req →
     cards (handle pwd_context db req route).1.1 !! id = Some card).
Proof.
  intros Hwf.
  destruct (handle_effect pwd_context db req route) as
    [ | name email password Hget
      | cur user deck_id deck word translation tip Hcur Hdeck Hown Hw Ht
      | cur user card_id card0 word translation tip Hcur Hcard Hown
      | cur user card_id card0 Hcur Hcard Hown
      | cur user name Hcur Hname
      | cur user deck_id deck0 Hcur Hdeck Hown ]; [done|..];
    try (apply current_user_session in Hcur as [Hsess _]; rewrite Hsess).
  - unfold user_create. by rewrite Hget.
  - split; [done|]. intros id card Hc _. simpl.
    rewrite lookup_insert_ne; [done|].
    intros <-. by rewrite next_id_fresh in Hc.
  - unfold card_update. rewrite Hcard. split; [done|].
    intros id card Hc Hother. simpl.
    rewrite lookup_insert_ne; [done|]. intros <-. congruence.
  - rewrite card_delete_by_id_db. rewrite Hcard. split; [done|].
    intros id card Hc Hother. simpl.
    rewrite lookup_delete_ne; [done|]. intros <-. congruence.
  - split; [|done]. intros id deck Hd _. simpl.
    rewrite lookup_insert_ne; [done|].
    intros <-. by rewrite next_id_fresh in Hd.
  - rewrite deck_delete_by_id_db. rewrite Hdeck. split.
    + intros id deck Hd Hother. simpl.
      rewrite lookup_delete_ne; [done|]. intros <-. congruence.
    + intros id card Hc Hother. simpl.
      apply map_lookup_filter_Some. split; [done|]. simpl.
      intros Hin. destruct (Hwf id card deck_id Hc Hin) as (d & Hd & Hsame).
      congruence.
Qed.

(** ** Emails *)

Lemma users_from_same (db db' : DB) : users db' = users db → users_from db db'.
Proof. intros Heq j v' Hv'. rewrite Heq in Hv'. by exists v'. Qed.

Lemma unique_emails_from (db db' : DB) :
  users_from db db' → unique_emails db → unique_emails db'.
Proof.
  intros Hfrom Huniq i j u v Hu Hv Hmail.
  destruct (Hfrom i u Hu) as (u0 & Hu0 & Hmu).
  destruct (Hfrom j v Hv) as (v0 & Hv0 & Hmv).
  apply (Huniq i j u0 v0 Hu0 Hv0). congruence.
Qed.

Lemma user_create_unique (pwd_context : CryptContext) (db : DB) salt name email
    password :
  unique_emails db →
  unique_emails (user_create pwd_context db salt name email password).2.
Proof.
  intros Huniq. unfold user_create.
  destruct (user_get_by_email db email) eqn:Hget; [done|].
  rewrite user_get_by_email_None in Hget.
  intros i j u v Hu Hv Hmail. simpl in *.
  apply lookup_insert_Some in Hu as [[<- <-]|[Hi Hu]];
    apply lookup_insert_Some in Hv as [[<- <-]|[Hj Hv]]; simpl in *.
  - done.
  - by destruct (Hget j v Hv).
  - by destruct (Hget i u Hu).
  - by eapply Huniq.
Qed.

Lemma user_update_name_from (db : DB) user_id name :
  users_from db (user_update_name db user_id name).2.
Proof.
  unfold user_update_name. destruct (users db !! user_id) as [user|] eqn:Hu;
    [|by apply users_from_same].
  intros j v' Hv'. simpl in Hv'.
  apply lookup_insert_Some in Hv' as [[<- <-]|[Hne Hv']]; eauto.
Qed.

Lemma user_change_password_from (pwd_context : CryptContext) (db : DB) salt
    user_id old new :
  users_from db (user_change_password pwd_context db salt user_id old new).2.
Proof.
  unfold user_change_password. destruct (users db !! user_id) as [user|] eqn:Hu;
    [|by apply users_from_same].
  destruct (verify_password _ _ _); [|by apply users_from_same].
  intros j v' Hv'. simpl in Hv'.
  apply lookup_insert_Some in Hv' as [[<- <-]|[Hne Hv']]; eauto.
Qed.

Lemma user_delete_by_id_from (db : DB) user_id :
  users_from db (user_delete_by_id db user_id).2.
Proof.
  rewrite user_delete_by_id_db. destruct (users db !! user_id);
    [|by apply users_from_same].
  intros j v' Hv'. simpl in Hv'. apply lookup_delete_Some in Hv' as [_ Hv'].
  eauto.
Qed.

Lemma request_effect_unique (pwd_context : CryptContext) (db db' : DB) req :
  request_effect pwd_context db req db' → unique_emails db → unique_emails db'.
Proof.
  intros Heff Huniq. destruct Heff; try done.
  - by apply user_create_unique.
  - eapply unique_emails_from; [|done]. apply users_from_same.
    unfold card_update. by destruct (cards db !! card_id).
  - eapply unique_emails_from; [|done]. apply users_from_same.
    rewrite card_delete_by_id_db. by destruct (cards db !! card_id).
  - eapply unique_emails_from; [|done]. apply users_from_same.
    rewrite deck_delete_by_id_db. by destruct (decks db !! deck_id).
Qed.

(** X3: The emails stay unique: when no two users of the database share an
    email, no accessor call and no request leads to a database in which
    two do. *)
Theorem emails_stay_unique (pwd_context : CryptContext) (db : DB) (op : Op) :
  unique_emails db → unique_emails (step pwd_context db op).
Proof.
  intros Huniq. destruct op; simpl.
  - by apply user_create_unique.
  - eapply unique_emails_from; [apply user_update_name_from | done].
  - eapply unique_emails_from; [apply user_change_password_from | done].
  - eapply unique_emails_from; [apply user_delete_by_id_from | done].
  - done.
  - eapply unique_emails_from; [|done]. apply users_from_same.
    unfold deck_update. by destruct (decks db !! deck_id).
  - eapply unique_emails_from; [|done]. apply users_from_same.
    rewrite deck_delete_by_id_db. by destruct (decks db !! deck_id).
  - done.
  - eapply unique_emails_from; [|done]. apply users_from_same.
    unfold card_update. by destruct (cards db !! card_id).
  - eapply unique_emails_from; [|done]. apply users_from_same.
    rewrite card_delete_by_id_db. by destruct (cards db !! card_id).
  - eapply request_effect_unique; [apply handle_effect | done].
Qed.

(** X4: The email of a user never changes: a user stored before a transition
    and still stored after it has the same email. *)
Theorem user_email_never_changes (pwd_context : CryptContext) (db : DB) (op : Op)
    (id : Z) (user user' : User) :
  users db !! id = Some user →
  users (step pwd_context db op) !! id = Some user' →
  user_email user' = user_email user.
Proof.
  intros Hu Hu'.
  assert (Hfrom : ∀ db', users_from db db' → users db' !! id = Some user' →
                         user_email user' = user_email user).
  { intros db' Hfrom H'. destruct (Hfrom id user' H') as (v & Hv & Hmail).
    congruence. }
  assert (Hcreate : ∀ salt name email password,
            users (user_create pwd_context db salt name email password).2 !! id
              = Some user' → user_email user' = user_email user).
  { intros salt name email password. unfold user_create.
    destruct (user_get_by_email db email); simpl; [congruence|].
    rewrite lookup_insert_ne; [congruence|].
    intros <-. by rewrite next_id_fresh in Hu. }
  destruct op; simpl in Hu'.
  - by eapply Hcreate.
  - eapply Hfrom; [apply user_update_name_from | done].
  - eapply Hfrom; [apply user_change_password_from | done].
  - eapply Hfrom; [apply user_delete_by_id_from | done].
  - congruence.
  - revert Hu'. unfold deck_update. destruct (decks db !! deck_id); simpl; congruence.
  - revert Hu'. rewrite deck_delete_by_id_db.
    destruct (decks db !! deck_id); simpl; congruence.
  - congruence.
  - revert Hu'. unfold card_update. destruct (cards db !! card_id); simpl; congruence.
  - revert Hu'. rewrite card_delete_by_id_db.
    destruct (cards db !! card_id); simpl; congruence.
  - pose proof (handle_users_kept pwd_context db req route id user Hu) as Hkeep.
    congruence.
Qed.

(** ** Creating decks and cards *)




(** ** What a delete keeps *)

(** X7: Deleting a card keeps every other card; deleting a deck keeps every
    other deck and every card that is not filed in it; deleting a user keeps
    every other user, every deck of someone else, and every card that
    neither belongs to the user nor is filed in one of the user's decks.
    Tables above the deleted row are untouched. *)
Theorem deletes_keep_the_rest (db : DB) (id : Z) :
  ((∀ j, j ≠ id → cards (card_delete_by_id db id).2 !! j = cards db !! j) ∧
   decks (card_delete_by_id db id).2 = decks db ∧
   users (card_delete_by_id db id).2 = users db) ∧
  ((∀ j, j ≠ id → decks (deck_delete_by_id db id).2 !! j = decks db !! j) ∧
   (∀ j c, cards db !! j = Some c → card_deck_id c ≠ Some id →
           cards (deck_delete_by_id db id).2 !! j = Some c) ∧
   users (deck_delete_by_id db id).2 = users db) ∧
  ((∀ j, j ≠ id → users (user_delete_by_id db id).2 !! j = users db !! j) ∧
   (∀ j d, decks db !! j = Some d → deck_user_id d ≠ Some id →
           decks (user_delete_by_id db id).2 !! j = Some d) ∧
   (∀ j c, cards db !! j = Some c → card_user_id c ≠ Some id →
           (∀ did d, card_deck_id c = Some did → decks db !! did = Some d →
                     deck_user_id d ≠ Some id) →
           cards (user_delete_by_id db id).2 !! j = Some c)).
Proof.
  split; [|split].
  - rewrite card_delete_by_id_db. destruct (cards db !! id); simpl; [|done].
    split; [|done]. intros j Hne. by rewrite lookup_delete_ne.
  - rewrite deck_delete_by_id_db. destruct (decks db !! id); simpl; [|done].
    split; [|split; [|done]].
    + intros j Hne. by rewrite lookup_delete_ne.
    + intros j c Hc Hne. by apply map_lookup_filter_Some.
  - rewrite user_delete_by_id_db. destruct (users db !! id); simpl; [|done].
    split; [|split].
    + intros j Hne. by rewrite lookup_delete_ne.
    + intros j d Hd Hne. by apply map_lookup_filter_Some.
    + intros j c Hc Hne Hdecks. apply map_lookup_filter_Some.
      split; [done|]. simpl. split; [done|].
      unfold in_deck_of_user.
      destruct (card_deck_id c) as [did|] eqn:Hdid; simpl; [|tauto].
      destruct (decks db !! did) as [d|] eqn:Hd; [|tauto].
      by apply (Hdecks did d).
Qed.

(** ** Updates that change nothing *)

Lemma DB_eq (db db' : DB) :
  users db = users db' → decks db = decks db' → cards db = cards db' → db = db'.
Proof. destruct db, db'; simpl. by intros -> -> ->. Qed.

Lemma Card_eq (c c' : Card) :
  card_user_id c = card_user_id c' → card_word c = card_word c' →
  card_translation c = card_translation c' → card_tip c = card_tip c' →
  card_deck_id c = card_deck_id c' → c = c'.
Proof. destruct c, c'; simpl. by intros -> -> -> -> ->. Qed.

(** X8: [card_update] without any new value stores what is stored already: the
    card comes back as it is and the database is unchanged. *)
Theorem card_update_nothing (db : DB) (card_id : Z) (card : Card) :
  cards db !! card_id = Some card →
  card_update db card_id None None None = (Some (card_id, card), db).
Proof.
  intros Hcard. unfold card_update. rewrite Hcard.
  assert (Hsame : {| card_user_id := card_user_id card;
                     card_word := card_word card;
                     card_translation := card_translation card;
                     card_tip := card_tip card;
                     card_deck_id := card_deck_id card |} = card)
    by by apply Card_eq.
  rewrite Hsame. f_equal. apply DB_eq; simpl; [done..|].
  by apply insert_id.
Qed.

(** X9: Two updates of a card in a row amount to one update that takes, field
    by field, the later value where there is one and the earlier otherwise. *)
Theorem card_update_twice (db : DB) (card_id : Z)
    (word1 translation1 tip1 word2 translation2 tip2 : option string) :
  card_update (card_update db card_id word1 translation1 tip1).2 card_id
    word2 translation2 tip2
  = card_update db card_id (later word1 word2) (later translation1 translation2)
      (later tip1 tip2).
Proof.
  unfold card_update.
  destruct (cards db !! card_id) as [card|] eqn:Hcard; simpl.
  - rewrite lookup_insert_eq. simpl. rewrite insert_insert_eq.
    by destruct word1, word2, translation1, translation2, tip1, tip2.
  - by rewrite Hcard.
Qed.

(** ** More on the filter *)

(** X10: The empty search string, and the search string [%], return every
    stored card. *)
Theorem card_filter_everything (db : DB) :
  card_filter db EmptyString = Returned (map_to_list (cards db)) ∧
  card_filter db "%" = Returned (map_to_list (cards db)).
Proof.
  assert (Hall : ∀ s, (s = EmptyString ∨ s = "%") →
                      ∀ l : list (Z * Card),
            filter (λ c, ilike (card_word c.2) ("%" +:+ s +:+ "%")
                         || ilike (card_translation c.2) ("%" +:+ s +:+ "%")
                         || ilike_null (card_tip c.2) ("%" +:+ s +:+ "%") = true) l
            = l).
  { intros s Hs l. induction l as [|c l IH]; [done|].
    rewrite filter_cons_True; [by rewrite IH|].
    assert (Hw : ilike (card_word c.2) ("%" +:+ s +:+ "%") = true).
    { unfold ilike. destruct Hs as [-> | ->]; cbn [c_string lower like];
        simpl; apply any_run_end; [done | by apply any_run_end]. }
    by rewrite Hw. }
  unfold card_filter. cbv zeta.
  split; (destruct (map_to_list (cards db)) as [|row rows] eqn:Hrows; [done|]);
    (replace (like_pattern_limit <? _)%nat with false by (vm_compute; reflexivity));
    f_equal; apply Hall; auto.
Qed.

(** X11: The case of the search string does not matter: two search strings that
    agree up to the case of the letters A-Z return the same cards. *)
Theorem card_filter_ignores_case (db : DB) (s s' : string) :
  lower s = lower s' → card_filter db s = card_filter db s'.
Proof.
  intros Hlow. unfold card_filter. cbv zeta.
  assert (Hlen : String.length ("%" +:+ s +:+ "%")
                 = String.length ("%" +:+ s' +:+ "%")).
  { rewrite <- (lower_length ("%" +:+ s +:+ "%")),
      <- (lower_length ("%" +:+ s' +:+ "%")).
    by rewrite !lower_search_term, Hlow. }
  rewrite Hlen. destruct (map_to_list (cards db)) as [|row rows]; [done|].
  destruct (_ <? _)%nat; [done|]. f_equal.
  apply list_filter_iff. intros c.
  assert (Heq : ∀ col, ilike col ("%" +:+ s +:+ "%") = ilike col ("%" +:+ s' +:+ "%")).
  { intros col. unfold ilike. by rewrite !lower_search_term, Hlow. }
  unfold ilike_null. rewrite !Heq. by destruct (card_tip c.2); rewrite ?Heq.
Qed.

(** ** More on the shuffle *)

Lemma shuffle_from_draws {A} (i : nat) :
  ∀ (rng rng' : list nat) (x y : list A),
    shuffle_from i rng x = Some (y, rng') → rng' = drop i rng.
Proof.
  induction i as [|i IH]; intros rng rng' x y Hrun.
  - simpl in Hrun. by injection Hrun as _ <-.
  - cbn [shuffle_from] in Hrun.
    destruct rng as [|r rng1]; cbn [randbelow] in Hrun.
    + destruct (swap x (S i) 0) as [x1|]; simpl in Hrun; [|done].
      apply IH in Hrun. by rewrite drop_nil in *.
    + destruct (swap x (S i) _) as [x1|]; simpl in Hrun; [|done].
      by apply IH in Hrun.
Qed.

(** [shuffle] uses one draw for each element but the first: what is left
    of the generator is the generator without its first [len(x) - 1] draws,
    and a list of at most one element comes back as it is. *)
Theorem shuffle_uses_draws {A} (rng : list nat) (x : list A) :
  ∃ y, shuffle rng x = Some (y, drop (List.length x - 1) rng) ∧
       List.length y = List.length x ∧
       ((List.length x ≤ 1)%nat → y = x).
Proof.
  destruct (shuffle_permutation rng x) as (y & rng' & Hrun & Hperm).
  exists y. pose proof Hrun as Hdraws. apply shuffle_from_draws in Hdraws.
  split; [by rewrite Hrun, Hdraws|]. split; [by rewrite Hperm|].
  intros Hshort. unfold shuffle in Hrun.
  replace (List.length x - 1)%nat with 0%nat in Hrun by lia.
  simpl in Hrun. by injection Hrun as <- _.
Qed.

Lemma swap_result {A} (l z : list A) (i j : nat) :
  swap l i j = Some z → (j ≤ i)%nat →
  z ≡ₚ l ∧ z !! i = l !! j ∧ drop (S i) z = drop (S i) l.
Proof.
  unfold swap. intros Hswap Hle.
  destruct (l !! i) as [a|] eqn:Ha; simpl in Hswap; [|done].
  destruct (l !! j) as [b|] eqn:Hb; simpl in Hswap; [|done].
  injection Hswap as <-.
  split; [by apply Permutation_insert_swap|].
  pose proof (lookup_lt_Some _ _ _ Ha) as Hi.
  split.
  - destruct (decide (j = i)) as [->|Hne].
    + rewrite list_lookup_insert_eq by (by rewrite length_insert). congruence.
    + rewrite list_lookup_insert_ne by done.
      by rewrite list_lookup_insert_eq.
  - rewrite !drop_insert_lt by lia. done.
Qed.

Lemma shuffle_from_reaches {A} (n : nat) :
  ∀ (p y suffix : list A),
    List.length p = S n → p ≡ₚ y →
    ∃ rng, shuffle_from n rng (p ++ suffix)%list = Some ((y ++ suffix)%list, []).
Proof.
  induction n as [|n IH]; intros p y suffix Hlen Hperm.
  - destruct p as [|a [|? ?]]; try done.
    apply Permutation_singleton_l in Hperm as <-. by exists [].
  - assert (Hleny : List.length y = S (S n)) by by rewrite <- Hperm.
    destruct y as [|b y0 _] using rev_ind; [done|].
    assert (Hin : b ∈ p) by (rewrite Hperm; set_solver).
    apply list_elem_of_lookup in Hin as [j Hj].
    pose proof (lookup_lt_Some _ _ _ Hj) as Hjlt.
    destruct (lookup_lt_is_Some_2 p (S n) ltac:(lia)) as [a Ha].
    destruct (swap_permutation (p ++ suffix)%list (S n) j) as (z & Hswap & _);
      [rewrite length_app; lia..|].
    destruct (swap_result _ _ _ _ Hswap ltac:(lia)) as (Hz & Hzn & Hzdrop).
    rewrite lookup_app_l, Hj in Hzn by lia.
    rewrite drop_app_length' in Hzdrop by done.
    pose proof (take_drop_middle z (S n) b Hzn) as Hsplit.
    rewrite Hzdrop in Hsplit.
    destruct (IH (take (S n) z) y0 (b :: suffix)) as [rng Hrun].
    { rewrite length_take_le; [done|].
      rewrite (Permutation_length Hz), length_app. lia. }
    { apply (Permutation_app_inv_r (b :: suffix)).
      rewrite Hsplit, Hz, Hperm. by rewrite <- app_assoc. }
    exists (j :: rng). cbn [shuffle_from randbelow].
    rewrite Nat.mod_small by lia. rewrite Hswap. simpl.
    rewrite <- Hsplit, Hrun. by rewrite <- app_assoc.
Qed.

Lemma shuffle_reaches_every_order {A} (x y : list A) :
  x ≡ₚ y → ∃ rng rng', shuffle rng x = Some (y, rng').
Proof.
  intros Hperm. unfold shuffle. destruct x as [|a x].
  - apply Permutation_nil_l in Hperm as <-. by exists [], [].
  - destruct (shuffle_from_reaches (List.length x) (a :: x) y [] eq_refl Hperm)
      as [rng Hrun].
    exists rng, []. rewrite !app_nil_r in Hrun. simpl.
    by rewrite Nat.sub_0_r.
Qed.

(** * Further properties of the views *)

Lemma head_filter_None {A} (P : Z * A → Prop) `{!∀ x, Decision (P x)}
    (m : gmap Z A) :
  head (filter P (map_to_list m)) = None ↔ ∀ k v, m !! k = Some v → ¬ P (k, v).
Proof.
  rewrite head_None. split.
  - intros Hnil k v Hv HP.
    apply (filter_nil_not_elem_of _ _ (k, v)) in Hnil; [|done].
    apply Hnil. by apply elem_of_map_to_list.
  - intros Hall. destruct (filter P (map_to_list m)) as [|[k v] l] eqn:Hf; [done|].
    assert (Hin : (k, v) ∈ filter P (map_to_list m)) by (rewrite Hf; left).
    apply list_elem_of_filter in Hin as [HP Hin].
    apply elem_of_map_to_list in Hin. by destruct (Hall k v Hin).
Qed.

Lemma deck_cards_spec (db : DB) (deck_id id : Z) (card : Card) :
  (id, card) ∈ deck_cards db deck_id ↔
  cards db !! id = Some card ∧ card_deck_id card = Some deck_id.
Proof.
  unfold deck_cards. rewrite list_elem_of_filter, elem_of_map_to_list. simpl.
  tauto.
Qed.

(** ** Listings *)

(** X12: The index shows the decks of the current user, each once, and no deck
    of anyone else. *)
Theorem index_lists_own_decks (db : DB) (cur : Z) :
  ∃ listed,
    index db cur = (db, mkResponse (RenderDecks listed) []) ∧
    NoDup listed ∧
    ∀ id deck, (id, deck) ∈ listed ↔
               decks db !! id = Some deck ∧ deck_user_id deck = Some cur.
Proof.
  exists (user_decks db cur). split; [done|]. unfold user_decks.
  split; [apply NoDup_filter, NoDup_map_to_list|].
  intros id deck. rewrite list_elem_of_filter, elem_of_map_to_list. simpl. tauto.
Qed.

(** X19: For its owner, the page of a deck shows the cards filed in the deck,
    each once, and no other card; the database stays as it is. *)
Theorem show_cards_lists_the_deck (db : DB) (cur : Z) (deck_id : Z) (deck : Deck) :
  decks db !! deck_id = Some deck →
  deck_user_id deck = Some cur →
  ∃ listed,
    show_cards_in_deck db cur deck_id
      = (db, mkResponse (RenderCards (deck_id, deck) listed) []) ∧
    NoDup listed ∧
    ∀ id card, (id, card) ∈ listed ↔
               cards db !! id = Some card ∧ card_deck_id card = Some deck_id.
Proof.
  intros Hdeck Hown. unfold show_cards_in_deck.
  rewrite (session_get_Some _ _ _ Hdeck), decide_True by done.
  exists (deck_cards db deck_id). split; [done|].
  split; [apply NoDup_filter, NoDup_map_to_list | apply deck_cards_spec].
Qed.

(** ** Adding *)

(** X20: For the owner of the deck, a request with a word and a translation that
    are not empty stores one new card, owned by the requesting user and
    filed in the deck, and redirects to the deck with the success message;
    the page of the deck then lists the new card. *)
Theorem add_card_to_deck_creates (db : DB) (cur : Z) (form : Form) (deck_id : Z)
    (deck : Deck) (word translation : string) :
  decks db !! deck_id = Some deck →
  deck_user_id deck = Some cur →
  form_get form "word" = Some word →
  form_get form "translation" = Some translation →
  word ≠ EmptyString → translation ≠ EmptyString →
  ∃ id listed,
    cards db !! id = None ∧
    add_card_to_deck db cur form deck_id
      = ({| users := users db;
            decks := decks db;
            cards := <[id := mkCard (Some cur) word translation
                                (form_get form "tip") (Some deck_id)]> (cards db) |},
         mkResponse (Redirect (EpShowCardsInDeck deck_id))
           [(msg_card_added, "success")]) ∧
    (show_cards_in_deck (add_card_to_deck db cur form deck_id).1 cur deck_id).2
      = mkResponse (RenderCards (deck_id, deck) listed) [] ∧
    (id, mkCard (Some cur) word translation (form_get form "tip") (Some deck_id))
      ∈ listed.
Proof.
  intros Hdeck Hown Hword Htrans Hw Ht. unfold add_card_to_deck.
  rewrite Hword, Htrans, (session_get_Some _ _ _ Hdeck), decide_True by done.
  destruct word as [|a w]; [done|]. destruct translation as [|b t]; [done|].
  simpl. eexists _, _. split; [apply next_id_fresh|]. split; [reflexivity|].
  unfold show_cards_in_deck. simpl. rewrite (session_get_Some _ _ _ Hdeck), decide_True by done.
  split; [reflexivity|]. apply deck_cards_spec. simpl.
  by rewrite lookup_insert_eq.
Qed.

(** X21: [add_deck] with a name that is absent or empty stores nothing and
    flashes the error; with any other name it stores one new deck of the
    requesting user under that name, which the index then lists. *)
Theorem add_deck_spec (db : DB) (cur : Z) (form : Form) :
  (form_get form "deck_name" = None ∨ form_get form "deck_name" = Some EmptyString →
     add_deck db cur form
       = (db, mkResponse (Redirect EpIndex) [(msg_deck_name_empty, "danger")])) ∧
  (∀ name, form_get form "deck_name" = Some name → name ≠ EmptyString →
     ∃ id listed,
       decks db !! id = None ∧
       add_deck db cur form
         = ({| users := users db;
               decks := <[id := mkDeck name (Some cur)]> (decks db);
               cards := cards db |},
            mkResponse (Redirect EpIndex) [(msg_deck_added, "success")]) ∧
       (index (add_deck db cur form).1 cur).2 = mkResponse (RenderDecks listed) [] ∧
       (id, mkDeck name (Some cur)) ∈ listed).
Proof.
  unfold add_deck. split.
  - by intros [-> | ->].
  - intros name -> Hname. destruct name as [|a n]; [done|]. simpl.
    eexists _, _. split; [apply next_id_fresh|]. split; [reflexivity|].
    split; [reflexivity|]. unfold user_decks.
    apply list_elem_of_filter. split; [done|].
    apply elem_of_map_to_list. simpl. by rewrite lookup_insert_eq.
Qed.

(** ** Deleting *)

Lemma deck_cards_after_delete (db : DB) (deck_id : Z) :
  deck_cards (orm_delete_deck db deck_id) deck_id = [].
Proof.
  destruct (deck_cards (orm_delete_deck db deck_id) deck_id) as [|[id c] l] eqn:Hl;
    [done|].
  assert (Hin : (id, c) ∈ deck_cards (orm_delete_deck db deck_id) deck_id)
    by (rewrite Hl; left).
  apply deck_cards_spec in Hin as [Hc Hd].
  by apply orm_delete_deck_cards in Hc as [_ Hne].
Qed.

(** X22: When its owner deletes a deck, the request redirects to the index with
    the success message, no card filed in the deck is left, and every later
    request for the deck (its id being in the signed 64-bit range, as the
    id of a stored row is) ends as for a deck that was never there. *)
Theorem delete_deck_then_gone (db : DB) (cur : Z) (deck_id : Z) (deck : Deck) :
  decks db !! deck_id = Some deck →
  deck_user_id deck = Some cur →
  delete_deck db cur deck_id
    = (orm_delete_deck db deck_id,
       mkResponse (Redirect EpIndex) [(msg_deck_deleted, "success")]) ∧
  deck_cards (delete_deck db cur deck_id).1 deck_id = [] ∧
  (int64 deck_id →
   ∀ user form rng,
     show_cards_in_deck (delete_deck db cur deck_id).1 user deck_id
       = ((delete_deck db cur deck_id).1, deck_not_found) ∧
     add_card_to_deck (delete_deck db cur deck_id).1 user form deck_id
       ∈ [((delete_deck db cur deck_id).1, deck_not_found);
          ((delete_deck db cur deck_id).1, mkResponse BadRequest [])] ∧
     review_deck (delete_deck db cur deck_id).1 user rng deck_id
       = ((delete_deck db cur deck_id).1, deck_not_found) ∧
     delete_deck (delete_deck db cur deck_id).1 user deck_id
       = ((delete_deck db cur deck_id).1, deck_not_found)).
Proof.
  intros Hdeck Hown.
  assert (Hrun : delete_deck db cur deck_id
                 = (orm_delete_deck db deck_id,
                    mkResponse (Redirect EpIndex) [(msg_deck_deleted, "success")])).
  { unfold delete_deck, deck_delete_by_id.
    by rewrite (session_get_Some _ _ _ Hdeck), decide_True. }
  rewrite Hrun. simpl. split; [done|].
  split; [apply deck_cards_after_delete|].
  intros Hrange user form rng.
  assert (Hgone : session_get (decks (orm_delete_deck db deck_id)) deck_id = Missing).
  { apply session_get_None; [apply lookup_delete_eq | done]. }
  unfold show_cards_in_deck, add_card_to_deck, review_deck, delete_deck.
  rewrite !Hgone. repeat split.
  destruct (form_get form "word"), (form_get form "translation");
    rewrite ?Hgone; set_solver.
Qed.

(** X23: When its owner deletes a card that is filed in a deck, the card is
    removed, the request redirects to that deck with the success message,
    and the card (its id being in the signed 64-bit range, as the id of a
    stored row is) can no longer be edited, updated or deleted. *)
Theorem delete_card_then_gone (db : DB) (cur : Z) (card_id : Z) (card : Card)
    (deck_id : Z) :
  cards db !! card_id = Some card →
  card_user_id card = Some cur →
  card_deck_id card = Some deck_id →
  delete_card db cur card_id
    = ({| users := users db; decks := decks db;
          cards := delete card_id (cards db) |},
       mkResponse (Redirect (EpShowCardsInDeck deck_id))
         [(msg_card_deleted, "success")]) ∧
  (int64 card_id →
   ∀ user form,
     edit_card (delete_card db cur card_id).1 user card_id
       = ((delete_card db cur card_id).1, card_not_found) ∧
     update_card (delete_card db cur card_id).1 user form card_id
       = ((delete_card db cur card_id).1, card_not_found) ∧
     delete_card (delete_card db cur card_id).1 user card_id
       = ((delete_card db cur card_id).1, card_not_found)).
Proof.
  intros Hcard Hown Hfiled.
  assert (Hrun : delete_card db cur card_id
                 = ({| users := users db; decks := decks db;
                       cards := delete card_id (cards db) |},
                    mkResponse (Redirect (EpShowCardsInDeck deck_id))
                      [(msg_card_deleted, "success")])).
  { unfold delete_card, card_delete_by_id.
    by rewrite (session_get_Some _ _ _ Hcard), decide_True, Hfiled. }
  rewrite Hrun. simpl. split; [done|]. intros Hrange user form.
  assert (Hgone : session_get (delete card_id (cards db)) card_id = Missing).
  { apply session_get_None; [apply lookup_delete_eq | done]. }
  unfold edit_card, update_card, delete_card. simpl.
  by rewrite !Hgone.
Qed.

(** ** Registering and logging in *)

(** X24: [register] on POST: an email that is taken stores nothing, keeps the
    session and redirects back with the message; a new email with a
    password stores the user with the hashed password, logs the user in and
    redirects to the index.  The view never reports the failure of
    [user_create]: it has looked the email up itself. *)
Theorem register_spec (pwd_context : CryptContext) (db : DB) (req : Request)
    (email : string) :
  form_get (form req) "email" = Some email →
  (∀ taken, user_get_by_email db email = Some taken →
     register pwd_context db req POST
       = (db, session_user_id req,
          mkResponse (Redirect EpRegister) [(msg_user_exists, "danger")])) ∧
  (∀ password,
     user_get_by_email db email = None →
     form_get (form req) "password" = Some password →
     ∃ id,
       users db !! id = None ∧
       register pwd_context db req POST
         = ({| users := <[id := mkUser (form_get (form req) "name") email
                                  (hash pwd_context (salt req) password)]> (users db);
               decks := decks db; cards := cards db |},
            Some id,
            mkResponse (Redirect EpIndex) [(msg_registered, "success")])) ∧
  (register pwd_context db req POST).2
    ≠ mkResponse RenderRegister [(msg_register_failed, "danger")].
Proof.
  intros Hemail. unfold register. rewrite Hemail. simpl. split; [|split].
  - by intros taken ->.
  - intros password Hfree ->. rewrite Hfree. unfold user_create. rewrite Hfree.
    simpl. eexists. split; [apply next_id_fresh | reflexivity].
  - destruct (user_get_by_email db email) eqn:Hget; [done|].
    destruct (form_get (form req) "password"); [|done].
    unfold user_create. by rewrite Hget.
Qed.

(** X25: A user who registered can log in: for a credential service that
    verifies its own hashes, a login with the registered email and password,
    from a session without a user, is accepted and opens the session of the
    registered user. *)
Theorem register_then_login (pwd_context : CryptContext) (db : DB)
    (req req' : Request) (email password : string) :
  (∀ s p, verify pwd_context p (hash pwd_context s p) = true) →
  form_get (form req) "email" = Some email →
  form_get (form req) "password" = Some password →
  user_get_by_email db email = None →
  form_get (form req') "email" = Some email →
  form_get (form req') "password" = Some password →
  current_user (register pwd_context db req POST).1.1 req' = None →
  ∃ id,
    (register pwd_context db req POST).1.2 = Some id ∧
    login pwd_context (register pwd_context db req POST).1.1 req' POST
      = ((register pwd_context db req POST).1.1, Some id,
         mkResponse (Redirect EpIndex) [(msg_logged_in, "success")]).
Proof.
  intros Hverify Hemail Hpw Hfree Hemail' Hpw' Hanon.
  unfold register in *. rewrite Hemail, Hpw in *. simpl in *.
  rewrite Hfree in *.
  destruct (user_create pwd_context db (salt req) (form_get (form req) "name")
              email password) as [[[id u]|] db'] eqn:Hcreate.
  - simpl in *. exists id. split; [done|].
    pose proof Hcreate as Hpass. unfold user_create in Hpass.
    rewrite Hfree in Hpass. injection Hpass as _ Hu _.
    apply user_create_get_by_email in Hcreate as Hget.
    unfold login. rewrite Hanon, Hemail', Hpw'. simpl. rewrite Hget.
    unfold verify_password. rewrite <- Hu. simpl. by rewrite Hverify.
  - unfold user_create in Hcreate. by rewrite Hfree in Hcreate.
Qed.

(** X26: A login that fails tells nothing about the email: with a password in
    the form, an email that no user has and a wrong password for an email
    that a user has get the same answer, and neither changes the database
    or the session. *)
Theorem login_failures_look_alike (pwd_context : CryptContext) (db : DB)
    (req : Request) (password : string) :
  current_user db req = None →
  form_get (form req) "password" = Some password →
  (form_get (form req) "email" ≫= user_get_by_email db = None ∨
   ∃ user, form_get (form req) "email" ≫= user_get_by_email db = Some user ∧
           verify pwd_context password (user_password user.2) = false) →
  login pwd_context db req POST
    = (db, session_user_id req,
       mkResponse RenderLogin [(msg_bad_credentials, "danger")]).
Proof.
  intros Hanon Hpw Hbad. unfold login. rewrite Hanon, Hpw.
  destruct Hbad as [-> | (user & -> & Hwrong)]; [done|].
  unfold verify_password. by rewrite Hwrong.
Qed.

(** X27: A login is accepted exactly for a stored email with a password that
    verifies: the session then names that user.  A request that is logged
    in already is sent to the index whatever it submits. *)
Theorem login_spec (pwd_context : CryptContext) (db : DB) (req : Request)
    (method : Method) :
  (∀ cur, current_user db req = Some cur →
     login pwd_context db req method
       = (db, session_user_id req, mkResponse (Redirect EpIndex) [])) ∧
  (∀ id user password,
     current_user db req = None →
     form_get (form req) "email" ≫= user_get_by_email db = Some (id, user) →
     form_get (form req) "password" = Some password →
     verify pwd_context password (user_password user) = true →
     login pwd_context db req POST
       = (db, Some id, mkResponse (Redirect EpIndex) [(msg_logged_in, "success")])) ∧
  (∀ id, (login pwd_context db req method).1.2 = Some id →
         (login pwd_context db req method).1.2 ≠ session_user_id req →
         ∃ user password,
           users db !! id = Some user ∧
           form_get (form req) "email" = Some (user_email user) ∧
           form_get (form req) "password" = Some password ∧
           verify pwd_context password (user_password user) = true).
Proof.
  unfold login. split; [|split].
  - by intros cur ->.
  - intros id user password -> -> -> Hv. unfold verify_password. simpl.
    by rewrite Hv.
  - intros id. destruct (current_user db req); [done|].
    destruct method; [done|].
    destruct (form_get (form req) "email") as [email|] eqn:Hemail; simpl; [|done].
    destruct (user_get_by_email db email) as [[uid user]|] eqn:Hget; [|done].
    destruct (form_get (form req) "password") as [password|]; [|done].
    unfold verify_password. simpl.
    destruct (verify pwd_context password (user_password user)) eqn:Hv; [|done].
    simpl. intros [= ->] _.
    apply user_get_by_email_Some in Hget as [Hu Hmail]. simpl in *.
    exists user, password. by rewrite Hmail.
Qed.

(** X28: [logout] ends the session of a logged-in user and redirects to the
    login page with its message; the database is untouched, and with the
    emptied session every route except [register] and [login] turns the
    client away, with Flask-Login's flashed login message. *)
Theorem logout_ends_session (pwd_context : CryptContext) (db : DB) (req : Request)
    (cur : Z * User) :
  current_user db req = Some cur →
  logout db req
    = (db, None, mkResponse (Redirect EpLogin) [(msg_logged_out, "success")]) ∧
  ∀ route form salt rng,
    (∀ method, route ≠ RRegister method) →
    (∀ method, route ≠ RLogin method) →
    handle pwd_context (logout db req).1.1
      (mkRequest (logout db req).1.2 form salt rng) route
      = (db, None,
         mkResponse Unauthorized [(msg_login_required, "message")]).
Proof.
  intros Hcur. unfold logout. rewrite Hcur. split; [done|].
  intros route form salt rng Hreg Hlog. simpl.
  destruct route; simpl; try done.
  - by destruct (Hreg method).
  - by destruct (Hlog method).
Qed.

(** ** The sample data *)

(** X29: [setup_database] adds the sample rows once: a database that it
    returned comes back unchanged from every later call. *)
Theorem setup_database_once (pwd_context : CryptContext) (db db' : DB)
    (salt salt' : string) :
  setup_database pwd_context db salt = Some db' →
  setup_database pwd_context db' salt' = Some db'.
Proof.
  unfold setup_database.
  destruct (head (filter _ (map_to_list (users db)))) as [found|] eqn:Halice.
  - intros [= <-]. by rewrite Halice.
  - destruct (user_get_by_email db "alice@example.com"); [done|].
    intros [= <-]. simpl.
    match goal with
    | |- context [head ?l] => destruct (head l) as [found|] eqn:Hnow; [done|]
    end.
    rewrite head_filter_None in Hnow.
    exfalso.
    apply (Hnow (next_id (users db))
             (mkUser (Some "Alice") "alice@example.com"
                (hash pwd_context salt "password123")));
      [apply lookup_insert_eq | done].
Qed.

(** X30: Without a user named Alice, and with her email free, [setup_database]
    adds one user, one deck of that user and two cards of that user filed
    in that deck, and keeps every row that was stored; with her email taken
    by a user of another name it fails and stores nothing. *)
Theorem setup_database_adds_sample (pwd_context : CryptContext) (db : DB)
    (salt : string) :
  (∀ id u, users db !! id = Some u → user_name u ≠ Some "Alice") →
  (user_get_by_email db "alice@example.com" ≠ None →
     setup_database pwd_context db salt = None) ∧
  (user_get_by_email db "alice@example.com" = None →
     ∃ db' user_id deck_id card1_id card2_id,
       setup_database pwd_context db salt = Some db' ∧
       users db !! user_id = None ∧ decks db !! deck_id = None ∧
       cards db !! card1_id = None ∧ cards db !! card2_id = None ∧
       card1_id ≠ card2_id ∧
       users db' = <[user_id := mkUser (Some "Alice") "alice@example.com"
                                   (hash pwd_context salt "password123")]> (users db) ∧
       decks db' = <[deck_id := mkDeck "General Vocabulary" (Some user_id)]> (decks db) ∧
       cards db' = <[card2_id := mkCard (Some user_id) "world" "світ"
                                    (Some "Наша планета") (Some deck_id)]>
                     (<[card1_id := mkCard (Some user_id) "hello" "привіт"
                                      (Some "Привітання") (Some deck_id)]> (cards db)) ∧
       size (cards db') = S (S (size (cards db))) ∧
       (well_filed db → well_filed db')).
Proof.
  intros Hnone. unfold setup_database.
  apply (head_filter_None (λ u : Z * User, user_name u.2 = Some "Alice")) in Hnone.
  rewrite Hnone. split.
  - by destruct (user_get_by_email db "alice@example.com").
  - intros ->.
    pose proof (next_id_fresh (cards db)) as Hc1.
    pose proof (next_id_fresh (<[next_id (cards db) :=
                  mkCard (Some (next_id (users db))) "hello" "привіт"
                    (Some "Привітання") (Some (next_id (decks db)))]> (cards db)))
      as Hc2.
    set (card1_id := next_id (cards db)) in *.
    set (card2_id := next_id (<[card1_id := _]> (cards db))) in *.
    assert (Hne : card1_id ≠ card2_id).
    { intros Heq. rewrite <- Heq in Hc2. by rewrite lookup_insert_eq in Hc2. }
    assert (Hc2' : cards db !! card2_id = None).
    { by rewrite lookup_insert_ne in Hc2. }
    eexists _, _, _, card1_id, card2_id. split; [reflexivity|].
    split; [apply next_id_fresh|]. split; [apply next_id_fresh|].
    split; [done|]. split; [done|]. split; [done|].
    split; [done|]. split; [done|]. split; [done|]. simpl. split.
    + rewrite map_size_insert_None by done. by rewrite map_size_insert_None.
    + intros Hwf id card did Hcard Hdid. simpl in *.
      apply lookup_insert_Some in Hcard as [[<- <-]|[_ Hcard]];
        [|apply lookup_insert_Some in Hcard as [[<- <-]|[_ Hcard]]].
      * injection Hdid as <-. eexists. by rewrite lookup_insert_eq.
      * injection Hdid as <-. eexists. by rewrite lookup_insert_eq.
      * destruct (Hwf id card did Hcard Hdid) as (d & Hd & Hsame).
        exists d. split; [|done]. rewrite lookup_insert_ne; [done|].
        intros <-. by rewrite next_id_fresh in Hd.
Qed.

(** * The further properties on the demo database *)

Lemma demo_verify_hash : ∀ s p, verify demo_context p (hash demo_context s p) = true.
Proof. intros s p. simpl. by apply bool_decide_eq_true. Qed.

Lemma demo_db_well_filed : well_filed demo_db.
Proof.
  intros id card did Hcard Hdid. unfold demo_db in *. simpl in *.
  repeat (apply lookup_insert_Some in Hcard as [[<- <-]|[_ Hcard]];
          [injection Hdid as <-; eexists; split; [vm_compute; reflexivity | done]|]).
  by rewrite lookup_empty in Hcard.
Qed.

Lemma demo_db_unique_emails : unique_emails demo_db.
Proof.
  intros i j u v Hu Hv Hmail. unfold demo_db in *. simpl in *.
  apply lookup_insert_Some in Hu as [[<- <-]|[_ Hu]];
    [|apply lookup_insert_Some in Hu as [[<- <-]|[_ Hu]];
      [|by rewrite lookup_empty in Hu]];
    (apply lookup_insert_Some in Hv as [[<- <-]|[_ Hv]];
      [|apply lookup_insert_Some in Hv as [[<- <-]|[_ Hv]];
        [|by rewrite lookup_empty in Hv]]);
    done.
Qed.

Lemma user_create_then_get_witness :
  user_create demo_context demo_db "salt" (Some "Carol") "carol@example.com" "pw"
    = (Some (3, mkUser (Some "Carol") "carol@example.com" "$pw"),
       (user_create demo_context demo_db "salt" (Some "Carol")
          "carol@example.com" "pw").2) ∧
  user_get_by_email
    (user_create demo_context demo_db "salt" (Some "Carol")
       "carol@example.com" "pw").2 "carol@example.com"
    = Some (3, mkUser (Some "Carol") "carol@example.com" "$pw").
Proof.
  assert (H : user_create demo_context demo_db "salt" (Some "Carol")
                "carol@example.com" "pw"
              = (Some (3, mkUser (Some "Carol") "carol@example.com" "$pw"),
                 (user_create demo_context demo_db "salt" (Some "Carol")
                    "carol@example.com" "pw").2))
    by (vm_compute; reflexivity).
  split; [exact H|]. exact (proj1 (user_create_then_get _ _ _ _ _ _ _ _ _ H)).
Defined.

Lemma anonymous_request_is_turned_away_witness :
  current_user demo_db (anonymous_request []) = None ∧
  handle demo_context demo_db (anonymous_request []) (RDeleteDeck 1)
    = (demo_db, None,
       mkResponse Unauthorized [(msg_login_required, "message")]).
Proof.
  split; [reflexivity|].
  apply (anonymous_request_is_turned_away demo_context demo_db
           (anonymous_request []) (RDeleteDeck 1)); [reflexivity | done | done].
Defined.

Lemma requests_keep_users_witness :
  users demo_db !! 2 = Some bob ∧
  users (handle demo_context demo_db
           (anonymous_request [("email", "carol@example.com"); ("password", "pw")])
           (RRegister POST)).1.1 !! 2 = Some bob.
Proof.
  assert (H : users demo_db !! 2 = Some bob) by (vm_compute; reflexivity).
  split; [exact H|]. exact (requests_keep_users _ _ _ _ _ _ H).
Defined.

Lemma requests_keep_well_filed_witness :
  well_filed demo_db ∧
  well_filed (handle demo_context demo_db (alice_request []) (RDeleteDeck 1)).1.1.
Proof.
  split; [exact demo_db_well_filed|].
  exact (requests_keep_well_filed _ _ _ _ demo_db_well_filed).
Defined.

Lemma requests_leave_others_alone_witness :
  well_filed demo_db ∧
  cards (handle demo_context demo_db (alice_request []) (RDeleteDeck 1)).1.1 !! 3
    = Some card_bob ∧
  decks (handle demo_context demo_db (alice_request []) (RDeleteDeck 2)).1.1 !! 2
    = Some bob_deck.
Proof.
  split; [exact demo_db_well_filed|]. split.
  - apply (requests_leave_others_alone demo_context demo_db (alice_request [])
             (RDeleteDeck 1) demo_db_well_filed);
      [vm_compute; reflexivity | vm_compute; congruence].
  - apply (requests_leave_others_alone demo_context demo_db (alice_request [])
             (RDeleteDeck 2) demo_db_well_filed);
      [vm_compute; reflexivity | vm_compute; congruence].
Defined.

Lemma emails_stay_unique_witness :
  unique_emails demo_db ∧
  unique_emails (step demo_context demo_db
                   (OpUserCreate "salt" (Some "Carol") "carol@example.com" "pw")).
Proof.
  split; [exact demo_db_unique_emails|].
  exact (emails_stay_unique _ _ _ demo_db_unique_emails).
Defined.

Lemma user_email_never_changes_witness :
  users demo_db !! 1 = Some alice ∧
  users (step demo_context demo_db (OpUserUpdateName 1 (Some "Alicia"))) !! 1
    = Some (mkUser (Some "Alicia") "alice@example.com" "$password123") ∧
  user_email (mkUser (Some "Alicia") "alice@example.com" "$password123")
    = user_email alice.
Proof.
  assert (H1 : users demo_db !! 1 = Some alice) by (vm_compute; reflexivity).
  assert (H2 : users (step demo_context demo_db (OpUserUpdateName 1 (Some "Alicia")))
                 !! 1
               = Some (mkUser (Some "Alicia") "alice@example.com" "$password123"))
    by (vm_compute; reflexivity).
  split; [exact H1|]. split; [exact H2|].
  exact (user_email_never_changes _ _ _ _ _ _ H1 H2).
Defined.

Lemma card_update_nothing_witness :
  cards demo_db !! 1 = Some card_hello ∧
  card_update demo_db 1 None None None = (Some (1, card_hello), demo_db).
Proof.
  assert (H : cards demo_db !! 1 = Some card_hello) by (vm_compute; reflexivity).
  split; [exact H|]. exact (card_update_nothing _ _ _ H).
Defined.

Lemma card_filter_ignores_case_witness :
  lower "ORL" = lower "orl" ∧
  card_filter demo_db "ORL" = card_filter demo_db "orl".
Proof.
  split; [reflexivity|].
  exact (card_filter_ignores_case demo_db "ORL" "orl" eq_refl).
Defined.

Lemma show_cards_lists_the_deck_witness :
  decks demo_db !! 1 = Some alice_deck ∧
  deck_user_id alice_deck = Some 1 ∧
  ∃ listed,
    show_cards_in_deck demo_db 1 1
      = (demo_db, mkResponse (RenderCards (1, alice_deck) listed) []) ∧
    (2, card_world) ∈ listed ∧ (3, card_bob) ∉ listed.
Proof.
  assert (H : decks demo_db !! 1 = Some alice_deck) by (vm_compute; reflexivity).
  split; [exact H|]. split; [reflexivity|].
  destruct (show_cards_lists_the_deck demo_db 1 1 alice_deck H eq_refl)
    as (listed & Hrun & _ & Hiff).
  exists listed. split; [exact Hrun|]. split.
  - apply Hiff. split; vm_compute; reflexivity.
  - intros Hin. apply Hiff in Hin as [_ Hdeck]. vm_compute in Hdeck.
    discriminate Hdeck.
Defined.

Lemma add_card_to_deck_creates_witness :
  decks demo_db !! 1 = Some alice_deck ∧
  deck_user_id alice_deck = Some 1 ∧
  ∃ id,
    cards demo_db !! id = None ∧
    cards (add_card_to_deck demo_db 1
             [("word", "sun"); ("translation", "сонце")] 1).1 !! id
      = Some (mkCard (Some 1) "sun" "сонце" None (Some 1)).
Proof.
  assert (H : decks demo_db !! 1 = Some alice_deck) by (vm_compute; reflexivity).
  split; [exact H|]. split; [reflexivity|].
  destruct (add_card_to_deck_creates demo_db 1
              [("word", "sun"); ("translation", "сонце")] 1 alice_deck
              "sun" "сонце" H eq_refl eq_refl eq_refl)
    as (id & listed & Hfree & Hrun & _); [done | done |].
  exists id. split; [exact Hfree|]. rewrite Hrun. simpl.
  apply lookup_insert_eq.
Defined.

Lemma delete_deck_then_gone_witness :
  decks demo_db !! 1 = Some alice_deck ∧
  deck_user_id alice_deck = Some 1 ∧
  int64 1 ∧
  show_cards_in_deck (delete_deck demo_db 1 1).1 1 1
    = ((delete_deck demo_db 1 1).1, deck_not_found).
Proof.
  assert (H : decks demo_db !! 1 = Some alice_deck) by (vm_compute; reflexivity).
  assert (H1 : int64 1) by (unfold int64; lia).
  split; [exact H|]. split; [reflexivity|]. split; [exact H1|].
  destruct (delete_deck_then_gone demo_db 1 1 alice_deck H eq_refl)
    as (_ & _ & Hlater).
  exact (proj1 (Hlater H1 1 [] [])).
Defined.

Lemma delete_card_then_gone_witness :
  cards demo_db !! 2 = Some card_world ∧
  card_user_id card_world = Some 1 ∧
  card_deck_id card_world = Some 1 ∧
  int64 2 ∧
  (delete_card demo_db 1 2).2
    = mkResponse (Redirect (EpShowCardsInDeck 1)) [(msg_card_deleted, "success")] ∧
  edit_card (delete_card demo_db 1 2).1 1 2
    = ((delete_card demo_db 1 2).1, card_not_found).
Proof.
  assert (H : cards demo_db !! 2 = Some card_world) by (vm_compute; reflexivity).
  assert (H2 : int64 2) by (unfold int64; lia).
  split; [exact H|]. split; [reflexivity|]. split; [reflexivity|].
  split; [exact H2|].
  destruct (delete_card_then_gone demo_db 1 2 card_world 1 H eq_refl eq_refl)
    as (Hrun & Hlater).
  split; [by rewrite Hrun | exact (proj1 (Hlater H2 1 []))].
Defined.

Lemma register_spec_witness :
  form_get (form (anonymous_request
                    [("email", "alice@example.com"); ("password", "pw")])) "email"
    = Some "alice@example.com" ∧
  register demo_context demo_db
    (anonymous_request [("email", "alice@example.com"); ("password", "pw")]) POST
    = (demo_db, None,
       mkResponse (Redirect EpRegister) [(msg_user_exists, "danger")]).
Proof.
  split; [reflexivity|].
  apply (proj1 (register_spec demo_context demo_db
                  (anonymous_request
                     [("email", "alice@example.com"); ("password", "pw")])
                  "alice@example.com" eq_refl) (1, alice)).
  vm_compute. reflexivity.
Defined.

Lemma register_then_login_witness :
  (∀ s p, verify demo_context p (hash demo_context s p) = true) ∧
  user_get_by_email demo_db "carol@example.com" = None ∧
  ∃ id,
    login demo_context
      (register demo_context demo_db
         (anonymous_request [("email", "carol@example.com"); ("password", "pw")])
         POST).1.1
      (anonymous_request [("email", "carol@example.com"); ("password", "pw")]) POST
    = ((register demo_context demo_db
          (anonymous_request [("email", "carol@example.com"); ("password", "pw")])
          POST).1.1,
       Some id,
       mkResponse (Redirect EpIndex) [(msg_logged_in, "success")]).
Proof.
  assert (H : user_get_by_email demo_db "carol@example.com" = None)
    by (vm_compute; reflexivity).
  split; [exact demo_verify_hash|]. split; [exact H|].
  destruct (register_then_login demo_context demo_db
              (anonymous_request [("email", "carol@example.com"); ("password", "pw")])
              (anonymous_request [("email", "carol@example.com"); ("password", "pw")])
              "carol@example.com" "pw" demo_verify_hash eq_refl eq_refl H
              eq_refl eq_refl eq_refl) as (id & _ & Hlogin).
  exists id. exact Hlogin.
Defined.

Lemma login_failures_look_alike_witness :
  current_user demo_db
    (anonymous_request [("email", "alice@example.com"); ("password", "guess")])
    = None ∧
  login demo_context demo_db
    (anonymous_request [("email", "alice@example.com"); ("password", "guess")]) POST
  = login demo_context demo_db
      (anonymous_request [("email", "nobody@example.com"); ("password", "guess")])
      POST.
Proof.
  split; [reflexivity|].
  rewrite (login_failures_look_alike demo_context demo_db
             (anonymous_request
                [("email", "alice@example.com"); ("password", "guess")])
             "guess" eq_refl eq_refl).
  - rewrite (login_failures_look_alike demo_context demo_db
               (anonymous_request
                  [("email", "nobody@example.com"); ("password", "guess")])
               "guess" eq_refl eq_refl); [reflexivity|].
    left. vm_compute. reflexivity.
  - right. exists (1, alice). split; vm_compute; reflexivity.
Defined.

Lemma logout_ends_session_witness :
  current_user demo_db (alice_request []) = Some (1, alice) ∧
  logout demo_db (alice_request [])
    = (demo_db, None,
       mkResponse (Redirect EpLogin) [(msg_logged_out, "success")]) ∧
  handle demo_context demo_db (mkRequest None [] "salt" []) (RDeleteDeck 1)
    = (demo_db, None,
       mkResponse Unauthorized [(msg_login_required, "message")]).
Proof.
  assert (H : current_user demo_db (alice_request []) = Some (1, alice))
    by (vm_compute; reflexivity).
  split; [exact H|].
  destruct (logout_ends_session demo_context demo_db (alice_request [])
              (1, alice) H) as [Hout Hnext].
  split; [exact Hout|].
  rewrite Hout in Hnext. exact (Hnext (RDeleteDeck 1) [] "salt" []
                                  ltac:(done) ltac:(done)).
Defined.

Lemma setup_database_once_witness :
  setup_database demo_context empty_db "salt" = Some sample_db ∧
  setup_database demo_context sample_db "pepper" = Some sample_db.
Proof.
  assert (H : setup_database demo_context empty_db "salt" = Some sample_db)
    by (vm_compute; reflexivity).
  split; [exact H|]. exact (setup_database_once _ _ _ _ "pepper" H).
Defined.

Lemma setup_database_adds_sample_witness :
  (∀ id u, users empty_db !! id = Some u → user_name u ≠ Some "Alice") ∧
  ∃ db', setup_database demo_context empty_db "salt" = Some db' ∧
         size (cards db') = 2%nat.
Proof.
  assert (H : ∀ id u, users empty_db !! id = Some u → user_name u ≠ Some "Alice").
  { intros id u Hu. simpl in Hu. by rewrite lookup_empty in Hu. }
  split; [exact H|].
  destruct (setup_database_adds_sample demo_context empty_db "salt" H) as [_ Hadd].
  destruct Hadd as (db' & ? & ? & ? & ? & Hrun & _ & _ & _ & _ & _ & _ & _ & _
                    & Hsize & _); [vm_compute; reflexivity|].
  exists db'. split; [exact Hrun|]. rewrite Hsize. simpl.
  by rewrite map_size_empty.
Defined.

(** X13: The review page can show the cards of a deck in every order: for each
    arrangement of the deck's records there are draws of the generator with
    which its owner gets exactly that arrangement. *)
Theorem review_deck_reaches_every_order (db : DB) (cur : Z) (deck_id : Z)
    (deck : Deck) (shown : list CardDict) :
  decks db !! deck_id = Some deck →
  deck_user_id deck = Some cur →
  shown ≡ₚ to_dict <$> deck_cards db deck_id →
  ∃ rng,
    review_deck db cur rng deck_id
      = (db, mkResponse (RenderReview (deck_id, deck) shown) []).
Proof.
  intros Hdeck Hown Hperm.
  destruct (shuffle_reaches_every_order (to_dict <$> deck_cards db deck_id) shown)
    as (rng & rng' & Hrun); [done|].
  exists rng. unfold review_deck. rewrite (session_get_Some _ _ _ Hdeck), decide_True by done.
  by rewrite Hrun.
Qed.

Lemma review_deck_reaches_every_order_witness :
  decks demo_db !! 1 = Some alice_deck ∧
  deck_user_id alice_deck = Some 1 ∧
  reverse (to_dict <$> deck_cards demo_db 1) ≡ₚ to_dict <$> deck_cards demo_db 1 ∧
  ∃ rng,
    review_deck demo_db 1 rng 1
      = (demo_db,
         mkResponse (RenderReview (1, alice_deck)
                       (reverse (to_dict <$> deck_cards demo_db 1))) []).
Proof.
  assert (H : decks demo_db !! 1 = Some alice_deck) by (vm_compute; reflexivity).
  split; [exact H|]. split; [reflexivity|].
  split; [apply reverse_Permutation|].
  exact (review_deck_reaches_every_order demo_db 1 1 alice_deck _ H eq_refl
           (reverse_Permutation _)).
Defined.
